(** * The SQL sandbox validator and the feedback service of learn-sql-backend

    A shallow embedding of [ValidatorService] (validator.service.ts) and of
    [AIService] (ai/ai.service.ts), with the properties their specification
    states about them, and of the callers around them: the configuration of
    the feedback service, the message filter of [TutorService] and the
    evaluation of a submission in [PracticeService].

    Conventions of the embedding.
    - A JavaScript string is a [string]: a sequence of 8-bit code units.
      [toUpperCase] and [toLowerCase] act on the ASCII letters, which is all
      the validator's vocabulary is made of; other code units are left as
      they are.
    - [null] and [undefined] fields are [option]s; a truthiness test on a
      string field is [truthy].
    - The SQLite engine and the reasoning service are outside the
      repository: they are parameters (an engine function, a service
      oracle).  The statements that the validator itself sends to the
      engine to seed the store are embedded as the store they build. *)

From Stdlib Require Import String Ascii List ZArith Lia Bool Permutation Sorted.
From Stdlib Require Import DecimalString.
From stdpp Require Import base gmap strings sorting.
Import ListNotations.

Local Open Scope list_scope.
Local Open Scope string_scope.
Local Open Scope Z_scope.

(** ** JavaScript string and array primitives used by the two services *)

Module JS.

(** Code units that [String.prototype.trim] strips: TAB, LF, VT, FF, CR,
    SPACE and NBSP (the white space and line terminators below 256). *)
Definition is_white (c : ascii) : bool :=
  match nat_of_ascii c with
  | 9%nat | 10%nat | 11%nat | 12%nat | 13%nat | 32%nat | 160%nat => true
  | _ => false
  end.

Fixpoint trimStart (s : string) : string :=
  match s with
  | EmptyString => EmptyString
  | String c s' => if is_white c then trimStart s' else s
  end.

Fixpoint trimEnd (s : string) : string :=
  match s with
  | EmptyString => EmptyString
  | String c s' =>
      match trimEnd s' with
      | EmptyString => if is_white c then EmptyString else String c EmptyString
      | t => String c t
      end
  end.

Definition trim (s : string) : string := trimEnd (trimStart s).

Definition upper_char (c : ascii) : ascii :=
  let n := nat_of_ascii c in
  if (97 <=? n)%nat && (n <=? 122)%nat then ascii_of_nat (n - 32) else c.

Definition lower_char (c : ascii) : ascii :=
  let n := nat_of_ascii c in
  if (65 <=? n)%nat && (n <=? 90)%nat then ascii_of_nat (n + 32) else c.

Fixpoint map_chars (f : ascii -> ascii) (s : string) : string :=
  match s with
  | EmptyString => EmptyString
  | String c s' => String (f c) (map_chars f s')
  end.

(** [toUpperCase] and [toLowerCase], exact on texts of code units below
    128.  (JavaScript also maps the letters above 127; these definitions
    leave them as they are, so a statement that quotes the mapped text is
    made for ASCII texts.) *)
Definition toUpperCase : string -> string := map_chars upper_char.
Definition toLowerCase : string -> string := map_chars lower_char.

(** [s.startsWith(p)] *)
Fixpoint startsWith (s p : string) : bool :=
  match p with
  | EmptyString => true
  | String c p' =>
      match s with
      | EmptyString => false
      | String d s' => if Ascii.eqb c d then startsWith s' p' else false
      end
  end.

(** [s.includes(k)] *)
Fixpoint includes (s k : string) : bool :=
  startsWith s k ||
  match s with
  | EmptyString => false
  | String _ s' => includes s' k
  end.

(** [s.split(sep)] for a one-character separator. *)
Fixpoint split (sep : ascii) (s : string) : list string :=
  match s with
  | EmptyString => [EmptyString]
  | String c s' =>
      if Ascii.eqb c sep then EmptyString :: split sep s'
      else match split sep s' with
           | h :: t => String c h :: t
           | [] => [String c EmptyString]
           end
  end.

(** A string is truthy when it is not empty. *)
Definition truthy (s : string) : bool :=
  match s with EmptyString => false | _ => true end.

(** [o || d] on an optional string: [undefined], [null] and the empty
    string all give the default. *)
Definition truthy_opt (o : option string) : bool :=
  match o with Some s => truthy s | None => false end.

(** Template interpolation of a non-negative integer. *)
Definition string_of_nat (n : nat) : string :=
  NilZero.string_of_uint (Nat.to_uint n).

Definition string_of_Z (z : Z) : string :=
  NilZero.string_of_int (Z.to_int z).

(** [a.slice(0, n)] for an integral [n]: a negative [n] counts from the
    end of the array. *)
Definition slice0 {A} (a : list A) (n : Z) : list A :=
  if n <? 0 then firstn (Z.to_nat (Z.of_nat (length a) + n)) a
  else firstn (Z.to_nat n) a.

(** [Array.prototype.sort] is stable.  [cmp a b] is the comparator's
    result: negative puts [a] first, positive puts [b] first, zero keeps
    the two in the order they came in. *)
Fixpoint sort_insert {A} (cmp : A -> A -> Z) (x : A) (l : list A) : list A :=
  match l with
  | [] => [x]
  | y :: l' => if cmp x y <=? 0 then x :: l else y :: sort_insert cmp x l'
  end.

Fixpoint sort {A} (cmp : A -> A -> Z) (l : list A) : list A :=
  match l with
  | [] => []
  | x :: l' => sort_insert cmp x (sort cmp l')
  end.

(** The comparison of the default [sort()]: by code units. *)
Definition compare_code_units (a b : string) : Z :=
  match String.compare a b with
  | Lt => -1
  | Eq => 0
  | Gt => 1
  end.

End JS.

(** ** JSON.stringify on the values the services serialise *)

Module JSON.

Definition dquote : string := String (ascii_of_nat 34) EmptyString.

Definition hex_digit (n : nat) : ascii :=
  if (n <? 10)%nat then ascii_of_nat (48 + n) else ascii_of_nat (87 + n).

(** One code unit inside a JSON string literal. *)
Definition escape_char (c : ascii) : string :=
  let n := nat_of_ascii c in
  match n with
  | 8%nat => "\b"
  | 9%nat => "\t"
  | 10%nat => "\n"
  | 12%nat => "\f"
  | 13%nat => "\r"
  | 34%nat => String "\" dquote
  | 92%nat => "\\"
  | _ =>
      if (n <? 32)%nat
      then "\u00" ++ String (hex_digit (n / 16)) (String (hex_digit (n mod 16)) EmptyString)
      else String c EmptyString
  end.

Fixpoint escape (s : string) : string :=
  match s with
  | EmptyString => EmptyString
  | String c s' => escape_char c ++ escape s'
  end.

Definition of_string (s : string) : string := dquote ++ escape s ++ dquote.

Definition of_bool (b : bool) : string := if b then "true" else "false".

Fixpoint join (sep : string) (l : list string) : string :=
  match l with
  | [] => EmptyString
  | [x] => x
  | x :: l' => x ++ sep ++ join sep l'
  end.

Definition of_array (items : list string) : string := "[" ++ join "," items ++ "]".

(** An object literal with the given keys, in order. *)
Definition of_object (fields : list (string * string)) : string :=
  "{" ++ join "," (map (fun kv => of_string (fst kv) ++ ":" ++ snd kv) fields) ++ "}".

End JSON.

(** ** The validator service (validator.service.ts) *)

(** A scalar that SQLite hands back through the driver.  A REAL is kept as
    the text JavaScript prints for it; [CUndefined] is what reading an
    absent property gives. *)
Inductive Cell :=
| CNull
| CInt (z : Z)
| CReal (repr : string)
| CText (s : string)
| CUndefined.

Record ResultSet := {
  columns : list string;
  rows : list (list Cell)
}.

Record ValidationResult := {
  error : option string;
  result : option ResultSet
}.

Record ValidatorOptions := {
  opt_timeout : option Z;
  opt_maxRows : option Z
}.

(** A row as the driver delivers it: an object, its keys in order. *)
Definition RowObject := list (string * Cell).

(** What [db.all] passes to its callback. *)
Inductive EngineAnswer :=
| EngineError (message : string)
| EngineRows (rows : list RowObject).

(** The in-memory store after the seeding statements. *)
Record Db := {
  users : list RowObject;
  products : list RowObject
}.

Module Validator.

Import JS.

Definition ALLOWED_STATEMENTS : list string := ["SELECT"].

Definition FORBIDDEN_KEYWORDS : list string :=
  ["DROP"; "DELETE"; "UPDATE"; "INSERT"; "ALTER"; "CREATE"; "TRUNCATE";
   "REPLACE"; "MERGE"; "CALL"; "EXPLAIN"; "LOCK"; "GRANT"; "REVOKE"].

Definition reject (message : string) : ValidationResult :=
  {| error := Some message; result := None |}.

Definition accept : ValidationResult := {| error := None; result := None |}.

Definition forbidden_message (keyword : string) : string :=
  "Operation not allowed: " ++ keyword ++ ". Only SELECT statements are permitted.".

Definition multiple_message : string :=
  "Multiple statements are not allowed. Please use a single SELECT statement.".

(** [sql.split(';').filter(s => s.trim())] *)
Definition statements (sql : string) : list string :=
  List.filter (fun s => truthy (trim s)) (split ";" sql).

Definition preValidateSQL (sql : string) : ValidationResult :=
  let trimmedSQL := toUpperCase (trim sql) in
  if negb (truthy trimmedSQL) then reject "SQL query cannot be empty"
  else
    match List.find (fun keyword => includes trimmedSQL keyword) FORBIDDEN_KEYWORDS with
    | Some keyword => reject (forbidden_message keyword)
    | None =>
        let startsWithAllowed :=
          List.existsb (fun stmt => startsWith trimmedSQL stmt) ALLOWED_STATEMENTS in
        if negb startsWithAllowed
        then reject ("Only SELECT statements are allowed. Found: "
                     ++ List.hd EmptyString (split " " trimmedSQL))
        else if (1 <? length (statements sql))%nat
             then reject multiple_message
             else accept
    end.

(** The seeding statements of [executeSQLInSandbox].  [id] is the INTEGER
    PRIMARY KEY that SQLite assigns from 1; [created_at] is not given by
    the INSERT, so it takes its default CURRENT_TIMESTAMP: the text of the
    clock at the time of seeding.  [in_stock] and [price] are as
    inserted. *)
Definition user_row (id : Z) (name email : string) (age : Z)
    (current_timestamp : string) : RowObject :=
  [("id", CInt id); ("name", CText name); ("email", CText email);
   ("age", CInt age); ("created_at", CText current_timestamp)].

Definition product_row (id : Z) (name price category : string) (in_stock : Z)
    : RowObject :=
  [("id", CInt id); ("name", CText name); ("price", CReal price);
   ("category", CText category); ("in_stock", CInt in_stock)].

Definition seed (current_timestamp : string) : Db :=
  {| users :=
       [user_row 1 "John Doe" "john@example.com" 30 current_timestamp;
        user_row 2 "Jane Smith" "jane@example.com" 25 current_timestamp;
        user_row 3 "Bob Johnson" "bob@example.com" 35 current_timestamp;
        user_row 4 "Alice Wilson" "alice@example.com" 28 current_timestamp;
        user_row 5 "Charlie Brown" "charlie@example.com" 32 current_timestamp];
     products :=
       [product_row 1 "Laptop" "999.99" "Electronics" 1;
        product_row 2 "Mouse" "29.99" "Electronics" 1;
        product_row 3 "Desk Chair" "199.99" "Furniture" 0;
        product_row 4 "Coffee Mug" "12.99" "Kitchen" 1;
        product_row 5 "Notebook" "5.99" "Office" 1] |}.

(** [row[col]] *)
Fixpoint get_prop (row : RowObject) (col : string) : Cell :=
  match row with
  | [] => CUndefined
  | (k, v) :: row' => if String.eqb k col then v else get_prop row' col
  end.

(** [Object.keys(row)] *)
Definition keys (row : RowObject) : list string := map fst row.

(** The body of the [db.all] callback on rows. *)
Definition shape_rows (rows : list RowObject) (maxRows : Z) : ResultSet :=
  let limitedRows := slice0 rows maxRows in
  let columns :=
    match limitedRows with
    | first :: _ => keys first
    | [] => []
    end in
  let rowsArray := map (fun row => map (fun col => get_prop row col) columns) limitedRows in
  {| columns := columns; rows := rowsArray |}.

Section Sandbox.

(** SQLite as it answers in one run: what [db.all(sql, ...)] passes to its
    callback on the seeded store.  The answer of a run may also depend on
    what the engine reads while it evaluates the text (its clock in
    [CURRENT_TIMESTAMP] or [datetime('now')], its random source in
    [random()]): two runs have two engines. *)
Variable engine : Db -> string -> EngineAnswer.

(** [current_timestamp] is the clock text at seeding and [elapsed] the
    milliseconds until the engine calls back; the timer set for
    [timeout] wins when the engine has not called back by then.  The value
    is what the promise resolves with.  After the timer has won, the
    engine's callback still runs and closes the database a second time;
    what that late call does to the process is not part of this value, and
    statements about a whole evaluation are made for runs in which the
    engine calls back in time. *)
Definition executeSQLInSandbox (current_timestamp : string) (elapsed : Z)
    (sql : string) (timeout maxRows : Z) : ValidationResult :=
  let db := seed current_timestamp in
  if timeout <=? elapsed then reject "Query execution timeout"
  else
    match engine db sql with
    | EngineError message => reject ("SQL Error: " ++ message)
    | EngineRows rows =>
        {| error := None; result := Some (shape_rows rows maxRows) |}
    end.

Definition run (current_timestamp : string) (elapsed : Z) (sql : string)
    (options : ValidatorOptions) : ValidationResult :=
  let timeout := default 5000 (opt_timeout options) in
  let maxRows := default 1000 (opt_maxRows options) in
  let preValidation := preValidateSQL sql in
  if truthy_opt (error preValidation) then preValidation
  else executeSQLInSandbox current_timestamp elapsed sql timeout maxRows.

End Sandbox.

(** [JSON.stringify(cell)]; an integer is printed with all its digits, as
    JavaScript does for the integers it holds exactly (up to 2^53). *)
Definition json_of_cell (c : Cell) : string :=
  match c with
  | CNull => "null"
  | CInt z => string_of_Z z
  | CReal repr => repr
  | CText s => JSON.of_string s
  | CUndefined => "null"
  end.

(** [JSON.stringify(row)] *)
Definition json_of_row (row : list Cell) : string :=
  JSON.of_array (map json_of_cell row).

Section Normalizer.

(** [a.localeCompare(b)]: the host's collation, negative, zero or
    positive. *)
Variable localeCompare : string -> string -> Z.

Definition normalizeResult (result : ResultSet) : string :=
  let sortedColumns := sort compare_code_units (columns result) in
  let sortedRows :=
    sort (fun a b => localeCompare (json_of_row a) (json_of_row b)) (rows result) in
  JSON.of_object
    [("columns", JSON.of_array (map JSON.of_string sortedColumns));
     ("rows", JSON.of_array (map json_of_row sortedRows))].

End Normalizer.

End Validator.

(** ** The feedback service (ai/ai.service.ts) *)

Module AI.

Import JS.

Record AIResponse := {
  feedback : string;
  suggestions : option (list string);
  explanation : option string;
  nextSteps : option (list string)
}.

Record SQLContext := {
  userSQL : string;
  expectedSQL : option string;
  userResult : option ResultSet;
  expectedResult : option ResultSet;
  exercisePrompt : string;
  difficulty : string;
  isCorrect : bool;
  validationError : option string
}.

Record AIProviderConfig := {
  baseUrl : string;
  model : string;
  timeout : Z;
  maxRetries : nat
}.

(** A JavaScript [Error]: its [name] and its [message]. *)
Record JsError := {
  name : string;
  message : string
}.

Definition Error (message : string) : JsError :=
  {| name := "Error"; message := message |}.

(** What [response.json()] gives: it rejects on a body that is not JSON,
    else the [response] field of the data, when there is one. *)
Inductive Body :=
| BodyInvalid (e : JsError)
| BodyData (response : option string).

(** What one [fetch] gives: it rejects (a transport failure, or an
    [AbortError] when the deadline timer aborts it), or it resolves with a
    status and a body. *)
Inductive FetchOutcome :=
| Rejected (e : JsError)
| Responded (ok : bool) (status : nat) (statusText : string) (body : Body).

Record Attempt := {
  outcome : FetchOutcome;
  took : Z
}.

Record CacheEntry := {
  response : AIResponse;
  timestamp : Z
}.

(** The service object and its surroundings: the cache, the clock that
    [Date.now()] reads, and two counters of what has been done so far, the
    calls to [fetch] and the calls to [Map.set]. *)
Record State := {
  responseCache : gmap string CacheEntry;
  now : Z;
  outbound : nat;
  inserts : nat
}.

(** A computation returns or throws, and leaves a state. *)
Inductive Completion (A : Type) :=
| Returned (a : A)
| Threw (e : JsError).
Arguments Returned {A} a.
Arguments Threw {A} e.

Definition M (A : Type) : Type := State -> Completion A * State.

Definition ret {A} (a : A) : M A := fun st => (Returned a, st).

Definition throw {A} (e : JsError) : M A := fun st => (Threw e, st).

Definition bind {A B} (m : M A) (k : A -> M B) : M B :=
  fun st =>
    match m st with
    | (Returned a, st') => k a st'
    | (Threw e, st') => (Threw e, st')
    end.

Definition try_catch {A} (body : M A) (handler : JsError -> M A) : M A :=
  fun st =>
    match body st with
    | (Returned a, st') => (Returned a, st')
    | (Threw e, st') => handler e st'
    end.

Declare Scope js_scope.
Delimit Scope js_scope with js.
Notation "x <- m ;; k" := (bind m (fun x => k))
  (at level 100, m at next level, right associativity) : js_scope.
Notation "m ;;; k" := (bind m (fun _ => k))
  (at level 100, right associativity) : js_scope.

Definition CACHE_TTL : Z := 1000 * 60 * 60.

Definition nl : string := String (ascii_of_nat 10) EmptyString.

Definition buildSystemPrompt : string :=
  "You are a SQL tutor. Provide brief, helpful feedback on student SQL queries." ++ nl ++
  nl ++
  "Guidelines:" ++ nl ++
  "- Be encouraging and specific" ++ nl ++
  "- Explain what works and what needs improvement" ++ nl ++
  "- Give 1-2 actionable suggestions" ++ nl ++
  "- Keep responses under 100 words" ++ nl ++
  nl ++
  "Format: Plain text feedback only.".

Definition buildUserPrompt (context : SQLContext) : string :=
  let prompt :=
    "Exercise: " ++ exercisePrompt context ++ nl ++ nl ++
    "Student SQL:" ++ nl ++ userSQL context ++ nl ++ nl in
  let prompt :=
    if truthy_opt (validationError context)
    then prompt ++ "Error: " ++ default EmptyString (validationError context) ++ nl
    else match userResult context with
         | Some r => prompt ++ "Result: " ++ string_of_nat (length (rows r)) ++ " rows returned" ++ nl
         | None => prompt
         end in
  prompt ++ "Status: " ++ (if isCorrect context then "SUCCESS" else "NEEDS WORK")
         ++ nl ++ nl ++ "Provide brief feedback:".

Definition parseAIResponse (aiMessage : string) (context : SQLContext) : AIResponse :=
  {| feedback := trim aiMessage;
     suggestions := Some [];
     explanation := Some EmptyString;
     nextSteps := Some [] |}.

Definition error_feedback (validationError : string) : string :=
  "I encountered an issue with your SQL query: " ++ validationError ++
  ". Please check your syntax and try again. Remember, only SELECT statements are allowed in this exercise.".

Definition success_feedback (rowCount : nat) : string :=
  "Great job! Your query executed successfully and returned " ++ string_of_nat rowCount ++
  " row(s). Your SQL syntax is correct and you're getting real data from the database. Keep practicing with more complex queries!".

Definition unavailable_feedback : string :=
  "Your query has been processed. The AI tutor is temporarily unavailable, but you can continue practicing. Check if your query returns the expected results.".

Definition fallback (feedback : string) (suggestions : list string) : AIResponse :=
  {| feedback := feedback;
     suggestions := Some suggestions;
     explanation := None;
     nextSteps := None |}.

Definition getFallbackResponse (context : SQLContext) : AIResponse :=
  if truthy_opt (validationError context)
  then fallback (error_feedback (default EmptyString (validationError context)))
         ["Check your SQL syntax"; "Ensure you're using SELECT statements only"]
  else
    match isCorrect context, userResult context with
    | true, Some userResult =>
        let rowCount := length (rows userResult) in
        fallback (success_feedback rowCount)
          ["Try adding WHERE clauses"; "Experiment with different column selections"]
    | _, _ =>
        fallback unavailable_feedback
          ["Review the exercise requirements"; "Test your query step by step"]
    end.

(** [Buffer.from(text)]: the UTF-8 bytes of the code units. *)
Fixpoint utf8 (s : string) : list nat :=
  match s with
  | EmptyString => []
  | String c s' =>
      let n := nat_of_ascii c in
      if (n <? 128)%nat then n :: utf8 s'
      else (192 + n / 64)%nat :: (128 + n mod 64)%nat :: utf8 s'
  end.

Definition base64_alphabet : string :=
  "ABCDEFGHIJKLMNOPQRSTUVWXYZabcdefghijklmnopqrstuvwxyz0123456789+/".

Definition base64_digit (n : nat) : ascii :=
  match String.get n base64_alphabet with
  | Some c => c
  | None => "="%char
  end.

(** [buffer.toString('base64')] *)
Fixpoint base64 (bytes : list nat) : string :=
  match bytes with
  | [] => EmptyString
  | [a] =>
      String (base64_digit (a / 4))
        (String (base64_digit (a mod 4 * 16)) "==")
  | [a; b] =>
      String (base64_digit (a / 4))
        (String (base64_digit (a mod 4 * 16 + b / 16))
           (String (base64_digit (b mod 16 * 4)) "="))
  | a :: b :: c :: rest =>
      String (base64_digit (a / 4))
        (String (base64_digit (a mod 4 * 16 + b / 16))
           (String (base64_digit (b mod 16 * 4 + c / 64))
              (String (base64_digit (c mod 64)) (base64 rest))))
  end%nat.

Definition createCacheKey (context : SQLContext) : string :=
  let keyData :=
    JSON.of_object
      [("sql", JSON.of_string (toLowerCase (trim (userSQL context))));
       ("prompt", JSON.of_string (exercisePrompt context));
       ("error", if truthy_opt (validationError context)
                 then JSON.of_string (default EmptyString (validationError context))
                 else "null");
       ("isCorrect", JSON.of_bool (isCorrect context));
       ("resultColumns",
          JSON.of_array (map JSON.of_string
            (match userResult context with Some r => columns r | None => [] end)));
       ("resultRowCount",
          string_of_nat (match userResult context with
                         | Some r => length (rows r)
                         | None => 0%nat
                         end))] in
  base64 (utf8 keyData).

Local Open Scope js_scope.

Definition getCachedResponse (key : string) : M (option AIResponse) :=
  fun st =>
    match responseCache st !! key with
    | Some cached =>
        if now st - timestamp cached <? CACHE_TTL
        then (Returned (Some (response cached)), st)
        else (Returned None,
              {| responseCache := delete key (responseCache st);
                 now := now st;
                 outbound := outbound st;
                 inserts := inserts st |})
    | None => (Returned None, st)
    end.

Definition cacheResponse (key : string) (response : AIResponse) : M unit :=
  fun st =>
    (Returned tt,
     {| responseCache :=
          <[key := {| response := response; timestamp := now st |}]> (responseCache st);
        now := now st;
        outbound := outbound st;
        inserts := S (inserts st) |}).

(** [setTimeout(resolve, ms)] awaited. *)
Definition sleep (ms : Z) : M unit :=
  fun st =>
    (Returned tt,
     {| responseCache := responseCache st;
        now := now st + ms;
        outbound := outbound st;
        inserts := inserts st |}).

Section Service.

Variable config : AIProviderConfig.

(** The reasoning service and the network: what the n-th outbound call
    of the process, sent with the given prompt, comes back with. *)
Variable service : nat -> string -> Attempt.

Definition fetch (prompt : string) : M FetchOutcome :=
  fun st =>
    let attempt := service (outbound st) prompt in
    (Returned (outcome attempt),
     {| responseCache := responseCache st;
        now := now st + took attempt;
        outbound := S (outbound st);
        inserts := inserts st |}).

(** The body of the [try] of one attempt, after the [fetch]. *)
Definition readResponse (context : SQLContext) (reply : FetchOutcome)
    : M AIResponse :=
  match reply with
  | Rejected e => throw e
  | Responded ok status statusText body =>
      if negb ok
      then throw (Error ("Ollama API error: " ++ string_of_nat status ++ " " ++ statusText))
      else
        match body with
        | BodyInvalid e => throw e
        | BodyData data_response =>
            let aiMessage :=
              if truthy_opt data_response
              then default EmptyString data_response
              else "No response from AI" in
            ret (parseAIResponse aiMessage context)
        end
  end.

(** The retry loop of [callAI]; [remaining] counts the iterations left,
    [maxRetries - attempt + 1]. *)
Fixpoint callAI_loop (context : SQLContext) (prompt : string)
    (remaining attempt : nat) (lastError : JsError) : M AIResponse :=
  match remaining with
  | O => throw lastError
  | S remaining' =>
      try_catch
        (reply <- fetch prompt ;; readResponse context reply)
        (fun error =>
           let lastError :=
             if String.eqb (name error) "AbortError"
             then Error ("AI request timeout after "
                         ++ string_of_Z (timeout config) ++ "ms")
             else error in
           (if (attempt <? maxRetries config)%nat then sleep 2000 else ret tt) ;;;
           callAI_loop context prompt remaining' (S attempt) lastError)
  end.

Definition callAI (context : SQLContext) : M AIResponse :=
  let systemPrompt := buildSystemPrompt in
  let userPrompt := buildUserPrompt context in
  let combinedPrompt := systemPrompt ++ nl ++ nl ++ userPrompt in
  callAI_loop context combinedPrompt (maxRetries config) 1%nat
    (Error "AI request failed").

Definition generateFeedback (context : SQLContext) : M AIResponse :=
  try_catch
    (let cacheKey := createCacheKey context in
     cached <- getCachedResponse cacheKey ;;
     match cached with
     | Some cached => ret cached
     | None =>
         response <- callAI context ;;
         cacheResponse cacheKey response ;;;
         ret response
     end)
    (fun error => ret (getFallbackResponse context)).

End Service.

End AI.

Import JS Validator AI.

(** ** Notions the statements below are phrased in *)

(** Two texts are equal up to the case of their letters. *)
Definition eq_ignore_case (a b : string) : Prop :=
  toUpperCase a = toUpperCase b.

(** [keyword] occurs in [sql] at some position, in any mix of cases. *)
Definition contains_ignore_case (sql keyword : string) : Prop :=
  exists before occurrence after,
    sql = before ++ occurrence ++ after /\ eq_ignore_case occurrence keyword.

(** Every code unit of the text satisfies [p]. *)
Fixpoint all_chars (p : ascii -> bool) (s : string) : bool :=
  match s with
  | EmptyString => true
  | String c s' => p c && all_chars p s'
  end.

Definition Rejected_by_classifier (r : ValidationResult) : Prop :=
  exists reason, r = reject reason.

(** A result without error. *)
Definition success (r : ResultSet) : ValidationResult :=
  {| error := None; result := Some r |}.

(** A stand-in for SQLite at concrete inputs: it answers the two
    full-table scans of the seeded store as SQLite does (every row of the
    table, the columns in the order of their declaration) and any other
    text with an error.  Only the two scans are ever relied on. *)
Definition table_scan_engine (db : Db) (sql : string) : EngineAnswer :=
  if String.eqb sql "SELECT * FROM users" then EngineRows (users db)
  else if String.eqb sql "SELECT * FROM products" then EngineRows (products db)
  else EngineError "unsupported statement".

(** The store with the one clock-dependent column blanked. *)
Definition forget_created_at (db : Db) : Db :=
  {| users :=
       map (fun row : RowObject =>
              map (fun kv : string * Cell =>
                     if String.eqb (fst kv) "created_at" then (fst kv, CNull) else kv)
                  row)
           (users db);
     products := products db |}.

(** Expected JSON texts are written with ['] for the double quote. *)
Definition json_text (s : string) : string :=
  map_chars (fun c => if Ascii.eqb c "'" then ascii_of_nat 34 else c) s.

(** The same result with its columns taken in the order [order] (a list
    of positions), the cells of every row moved along with them. *)
Definition reorder_columns (order : list nat) (r : ResultSet) : ResultSet :=
  {| columns := map (fun i => nth i (columns r) EmptyString) order;
     rows := map (fun row => map (fun i => nth i row CUndefined) order) (rows r) |}.

(** The text [callAI] sends with every attempt. *)
Definition combinedPrompt (context : SQLContext) : string :=
  buildSystemPrompt ++ nl ++ nl ++ buildUserPrompt context.

(** The message [callAI] parses out of the service's data. *)
Definition aiMessage_of (data_response : option string) : string :=
  if truthy_opt data_response then default EmptyString data_response
  else "No response from AI".

(** Among the [remaining] outbound calls numbered from [start], the first
    one that the service answers with an OK status and a JSON body: its
    number and the [response] field of the body.  [None] when every one of
    them fails. *)
Fixpoint first_answer (service : nat -> string -> Attempt) (prompt : string)
    (start remaining : nat) : option (nat * option string) :=
  match remaining with
  | O => None
  | S remaining' =>
      match outcome (service start prompt) with
      | Responded true _ _ (BodyData data_response) => Some (start, data_response)
      | _ => first_answer service prompt (S start) remaining'
      end
  end.

(** An attempt fails unless the service answers it with an OK status and
    a JSON body. *)
Definition attempt_fails (reply : FetchOutcome) : bool :=
  match reply with
  | Responded true _ _ (BodyData _) => false
  | _ => true
  end.

(** Every one of the [n] outbound calls numbered from [start] fails. *)
Definition all_attempts_fail (service : nat -> string -> Attempt) (prompt : string)
    (start n : nat) : Prop :=
  forall i, (i < n)%nat -> attempt_fails (outcome (service (start + i)%nat prompt)) = true.

(** The lookup of [key] in the state [st] finds nothing it can use. *)
Definition cache_miss (key : string) (st : State) : Prop :=
  fst (getCachedResponse key st) = Returned None.

(** The three cases of the fallback rule, each with the test that selects
    it and the payload it gives. *)
Inductive FallbackCase := ErrorCase | SuccessCase | UnavailableCase.

Definition case_applies (c : FallbackCase) (context : SQLContext) : Prop :=
  match c with
  | ErrorCase => truthy_opt (validationError context) = true
  | SuccessCase =>
      truthy_opt (validationError context) = false /\
      isCorrect context = true /\ userResult context <> None
  | UnavailableCase =>
      truthy_opt (validationError context) = false /\
      (isCorrect context = false \/ userResult context = None)
  end.

Definition case_payload (c : FallbackCase) (context : SQLContext) : AIResponse :=
  match c with
  | ErrorCase =>
      fallback (error_feedback (default EmptyString (validationError context)))
        ["Check your SQL syntax"; "Ensure you're using SELECT statements only"]
  | SuccessCase =>
      fallback
        (success_feedback
           (match userResult context with Some r => length (rows r) | None => 0%nat end))
        ["Try adding WHERE clauses"; "Experiment with different column selections"]
  | UnavailableCase =>
      fallback unavailable_feedback
        ["Review the exercise requirements"; "Test your query step by step"]
  end.

(** Concrete surroundings for the examples: a configuration, a fresh
    state, a service that is down, one that answers with an empty text and
    one that answers with a text. *)
Definition example_config : AIProviderConfig :=
  {| baseUrl := "http://localhost:11434"; model := "codellama:7b";
     timeout := 90000; maxRetries := 2 |}.

Definition fresh_state : State :=
  {| responseCache := ∅; now := 1756398674000; outbound := 0; inserts := 0 |}.

Definition service_down : nat -> string -> Attempt :=
  fun _ _ => {| outcome := Rejected {| name := "TypeError"; message := "fetch failed" |};
                took := 12 |}.

Definition service_silent : nat -> string -> Attempt :=
  fun _ _ => {| outcome := Responded true 200 "OK" (BodyData (Some EmptyString));
                took := 700 |}.

Definition service_helpful : nat -> string -> Attempt :=
  fun _ _ => {| outcome := Responded true 200 "OK" (BodyData (Some " Looks good. "));
                took := 700 |}.

Definition failed_context : SQLContext :=
  {| userSQL := "SELECT * FROM orders";
     expectedSQL := None;
     userResult := None;
     expectedResult := None;
     exercisePrompt := "List every order";
     difficulty := "beginner";
     isCorrect := false;
     validationError := Some "SQL Error: no such table: orders" |}.

(** A state whose one entry was stored at time 0, read at [clock]. *)
Definition state_at (clock : Z) : State :=
  {| responseCache :=
       {[ "key" := {| response := getFallbackResponse failed_context; timestamp := 0 |} ]};
     now := clock;
     outbound := 0;
     inserts := 1 |}.

(** The time that the [n] outbound calls numbered from [start] take
    together. *)
Fixpoint total_took (service : nat -> string -> Attempt) (prompt : string)
    (start n : nat) : Z :=
  match n with
  | O => 0
  | S n' => took (service start prompt) + total_took service prompt (S start) n'
  end.

(** The fields of a context that its cache key is made of. *)
Definition fingerprint_fields (context : SQLContext)
    : string * string * option string * bool * list string * nat :=
  (toLowerCase (trim (userSQL context)),
   exercisePrompt context,
   (if truthy_opt (validationError context) then validationError context else None),
   isCorrect context,
   match userResult context with Some r => columns r | None => [] end,
   match userResult context with Some r => length (rows r) | None => 0%nat end).

(** The submission of [failed_context] typed again with other case and
    outer white space, by a learner at another level. *)
Definition same_submission : SQLContext :=
  {| userSQL := "  select * FROM Orders ";
     expectedSQL := Some "SELECT * FROM orders";
     userResult := None;
     expectedResult := None;
     exercisePrompt := "List every order";
     difficulty := "advanced";
     isCorrect := false;
     validationError := Some "SQL Error: no such table: orders" |}.

(** A service that is down for the first two calls and answers from the
    third on. *)
Definition service_recovering : nat -> string -> Attempt :=
  fun n prompt => if (n <? 2)%nat then service_down n prompt else service_helpful n prompt.

(** ** The configuration of the feedback service (its constructor) *)

Module Config.

(** The value of a code unit as a digit, letters counting from ten. *)
Definition digit_value (c : ascii) : option Z :=
  let n := Z.of_nat (nat_of_ascii c) in
  if (48 <=? n) && (n <=? 57) then Some (n - 48)
  else if (97 <=? n) && (n <=? 122) then Some (n - 87)
  else if (65 <=? n) && (n <=? 90) then Some (n - 55)
  else None.

(** The number that the longest prefix of digits of the radix denotes,
    when there is one. *)
Fixpoint digits_prefix (radix : Z) (s : string) (acc : option Z) : option Z :=
  match s with
  | EmptyString => acc
  | String c s' =>
      match digit_value c with
      | Some d =>
          if d <? radix
          then digits_prefix radix s' (Some (default 0 acc * radix + d))
          else acc
      | None => acc
      end
  end.

(** [parseInt(text)] without a radix; [None] is [NaN].  Leading white
    space is skipped, a sign is read, a prefix [0x] or [0X] selects radix
    sixteen, and the digits that follow are read as far as they go.  (The
    loss of precision of JavaScript numbers beyond 2^53 is left out.) *)
Definition parseInt (text : string) : option Z :=
  let s := trimStart text in
  let '(sign, s) :=
    match s with
    | String "-" rest => (-1, rest)
    | String "+" rest => (1, rest)
    | _ => (1, s)
    end in
  let '(radix, s) :=
    match s with
    | String "0" (String "x" rest) => (16, rest)
    | String "0" (String "X" rest) => (16, rest)
    | _ => (10, s)
    end in
  match digits_prefix radix s None with
  | Some n => Some (sign * n)
  | None => None
  end.

Section Environment.

(** [configService.get(key)]: the settings the process was started with. *)
Variable env : gmap string string.

(** [process.platform] and [process.arch]. *)
Variables platform arch : string.

Definition getOptimalTimeout : Z :=
  let configTimeoutStr := env !! "AI_TIMEOUT_SECONDS" in
  let configTimeout :=
    if truthy_opt configTimeoutStr
    then parseInt (default EmptyString configTimeoutStr)
    else Some 0 in
  match configTimeout with
  | Some seconds =>
      if 0 <? seconds then seconds * 1000
      else if String.eqb platform "darwin" && String.eqb arch "arm64" then 180000
      else if String.eqb platform "darwin" then 120000
      else 90000
  | None =>
      if String.eqb platform "darwin" && String.eqb arch "arm64" then 180000
      else if String.eqb platform "darwin" then 120000
      else 90000
  end.

(** The [config] that the constructor builds.  [maxRetries] is kept as
    the number of attempts the retry loop makes: a setting that parses to
    [NaN], zero or a negative number lets the loop run zero times. *)
Definition config : AIProviderConfig :=
  {| baseUrl := default "http://localhost:11434" (env !! "OLLAMA_BASE_URL");
     model := default "codellama:7b" (env !! "OLLAMA_MODEL");
     timeout := getOptimalTimeout;
     maxRetries :=
       match parseInt (default "2" (env !! "AI_MAX_RETRIES")) with
       | Some n => Z.to_nat n
       | None => 0%nat
       end |}.

End Environment.

End Config.

(** ** The tutor's message filter (tutor/tutor.service.ts) *)

(** What the services throw at their callers: the two HTTP exceptions
    they raise themselves, and the refusal of the persistence layer to
    store a record. *)
Inductive HttpException :=
| BadRequestException (message : string)
| NotFoundException (message : string)
| PersistenceError.

Module Tutor.

(** The regular expressions of the filter are made of words and of [\s+];
    all carry the flag [i] and none the flag [g]. *)
Inductive Atom :=
| Lit (word : string)
| Spaces.

Definition Pattern := list Atom.

Definition HARMFUL_PATTERNS : list Pattern :=
  [[Lit "drop"; Spaces; Lit "table"];
   [Lit "delete"; Spaces; Lit "from"];
   [Lit "truncate"];
   [Lit "alter"; Spaces; Lit "table"];
   [Lit "create"; Spaces; Lit "user"];
   [Lit "grant"; Spaces];
   [Lit "revoke"; Spaces]].

(** The text after [word], when the text begins with it in any case: under
    the flag [i] two code units match when their upper cases are equal. *)
Fixpoint strip_prefix_ci (word s : string) : option string :=
  match word with
  | EmptyString => Some s
  | String c word' =>
      match s with
      | EmptyString => None
      | String d s' =>
          if Ascii.eqb (upper_char c) (upper_char d) then strip_prefix_ci word' s'
          else None
      end
  end.

(** The pattern matches at the start of the text.  [\s+] takes one or more
    white code units, as many as lets the rest match. *)
Fixpoint match_here (p : Pattern) : string -> bool :=
  match p with
  | [] => fun _ => true
  | Lit word :: p' =>
      fun s =>
        match strip_prefix_ci word s with
        | Some rest => match_here p' rest
        | None => false
        end
  | Spaces :: p' =>
      fix spaces (s : string) : bool :=
        match s with
        | EmptyString => false
        | String c s' => is_white c && (spaces s' || match_here p' s')
        end
  end.

(** [pattern.test(text)]: the pattern matches somewhere in the text. *)
Fixpoint test (p : Pattern) (s : string) : bool :=
  match_here p s ||
  match s with
  | EmptyString => false
  | String _ s' => test p s'
  end.

Definition harmful_message : string :=
  "Your message contains potentially harmful SQL operations. Please rephrase your question about learning SQL concepts.".

Definition focus_message : string :=
  "Please keep your questions focused on learning SQL concepts and techniques.".

Definition suspiciousTerms : list string := ["hack"; "exploit"; "inject"; "bypass"].

(** [validateMessage] returns nothing; [Some e] is the exception it
    throws. *)
Definition validateMessage (message : string) : option HttpException :=
  if List.existsb (fun pattern => test pattern message) HARMFUL_PATTERNS
  then Some (BadRequestException harmful_message)
  else
    let lowercaseMessage := toLowerCase message in
    if List.existsb (fun term => includes lowercaseMessage term) suspiciousTerms
    then Some (BadRequestException focus_message)
    else None.

(** The level that [buildChatContext] derives from the number of lessons
    completed. *)
Definition userLevel (progressCount : nat) : string :=
  if (progressCount =? 0)%nat then "beginner"
  else if (progressCount <? 3)%nat then "intermediate"
  else "advanced".

End Tutor.

(** ** The practice service (practice/practice.service.ts) *)

Module Practice.

Inductive EvaluationMode := EVALUATE | EXPLAIN.

Record EvaluateDto := {
  dto_exerciseId : string;
  dto_sql : string;
  dto_mode : EvaluationMode
}.

(** A row of the table of exercises, as far as the service reads it. *)
Record Exercise := {
  exercise_id : string;
  exercise_lessonId : string;
  exercise_prompt : string;
  exercise_expectedSql : option string;
  exercise_expectedResult : option ResultSet;
  exercise_difficulty : string;
  exercise_orderIndex : Z
}.

(** A row of the table of attempts, as the service writes it. *)
Record Attempt := {
  attempt_userId : Z;
  attempt_exerciseId : string;
  attempt_sql : string;
  attempt_isCorrect : bool;
  attempt_feedback : string;
  attempt_result : option ResultSet;
  attempt_score : Z
}.

Record NextSuggestion := {
  suggestion_type : string;
  suggestedExerciseId : option string;
  suggestion_list : list string
}.

Record EvaluationResult := {
  eval_isCorrect : bool;
  eval_feedback : string;
  resultPreview : option ResultSet;
  nextSuggestion : NextSuggestion
}.

(** [columns.join(', ')] *)
Definition join_columns (cols : list string) : string := JSON.join ", " cols.

Definition generateValidatorFeedback (sql : string) (mode : EvaluationMode)
    (result : option ResultSet) (error : option string) : string :=
  if truthy_opt error then "SQL Error: " ++ default EmptyString error
  else
    match result with
    | None => "Query processed but no result data available."
    | Some result =>
        match mode with
        | EXPLAIN =>
            "Query executed successfully! Your SQL " ++ JSON.dquote
            ++ String.substring 0 50 sql ++ "..." ++ JSON.dquote ++ " returned "
            ++ string_of_nat (length (rows result)) ++ " rows with columns: "
            ++ join_columns (columns result)
            ++ ". AI explanation will be available in the next sprint."
        | EVALUATE =>
            let rowCount := length (rows result) in
            let columnCount := length (columns result) in
            if (rowCount =? 0)%nat
            then "Your query executed successfully but returned no results. Check if your WHERE conditions are too restrictive or if the data exists."
            else "Great! Your query executed successfully and returned "
                 ++ string_of_nat rowCount ++ " row(s) with "
                 ++ string_of_nat columnCount ++ " column(s): "
                 ++ join_columns (columns result)
                 ++ ". The validator has confirmed your SQL syntax is correct."
        end
    end.

(** Names that every object inherits: looking one of them up in the table
    of multipliers gives a truthy value that is not a number. *)
Definition inherited_names : list string :=
  ["constructor"; "__proto__"; "hasOwnProperty"; "isPrototypeOf";
   "propertyIsEnumerable"; "toLocaleString"; "toString"; "valueOf";
   "__defineGetter__"; "__defineSetter__"; "__lookupGetter__"; "__lookupSetter__"].

(** [calculateScore]; [None] when what it returns is not a number. *)
Definition calculateScore (isCorrect : bool) (difficulty : string) : option Z :=
  if negb isCorrect then Some 0
  else if String.eqb difficulty "intro" then Some 5
  else if String.eqb difficulty "beginner" then Some 10
  else if String.eqb difficulty "intermediate" then Some 15
  else if String.eqb difficulty "advanced" then Some 20
  else if List.existsb (String.eqb difficulty) inherited_names then None
  else Some 10.

(** [findNextExercise].  [table] is the table of exercises as the query
    finds it, [None] when the query fails: the [catch] then answers
    [undefined].  On the table, the query [findFirst] takes the first, by
    order index, of the exercises of the same lesson that come after the
    current one. *)
Definition findNextExercise (table : option (list Exercise)) (currentExercise : Exercise)
    : option string :=
  match table with
  | None => None
  | Some exercises =>
      let later :=
        List.filter
          (fun e => String.eqb (exercise_lessonId e) (exercise_lessonId currentExercise)
                    && (exercise_orderIndex currentExercise <? exercise_orderIndex e))
          exercises in
      match sort (fun a b => exercise_orderIndex a - exercise_orderIndex b) later with
      | nextExercise :: _ => Some (exercise_id nextExercise)
      | [] => None
      end
  end.

(** What an evaluation reads and changes: the state of the feedback
    service and the table of attempts. *)
Record State := {
  ai_state : AI.State;
  attempts : list Attempt
}.

(** The context that [evaluateSubmission] prepares for the feedback
    service. *)
Definition aiContext (exercise : Exercise) (sql : string)
    (validationResult : ValidationResult) (isCorrect : bool) : SQLContext :=
  {| userSQL := trim sql;
     expectedSQL :=
       if truthy_opt (exercise_expectedSql exercise)
       then exercise_expectedSql exercise else None;
     userResult := result validationResult;
     expectedResult := exercise_expectedResult exercise;
     exercisePrompt := exercise_prompt exercise;
     difficulty := exercise_difficulty exercise;
     AI.isCorrect := isCorrect;
     validationError :=
       if truthy_opt (error validationResult)
       then error validationResult else None |}.

Section Evaluation.

(** The surroundings of one call: the table of exercises, the sandbox
    engine with the clock text at seeding and the time the engine takes,
    the configuration of the feedback service and the reasoning service. *)
Variable exercises : list Exercise.
Variable engine : Db -> string -> EngineAnswer.
Variable current_timestamp : string.
Variable elapsed : Z.
Variable config : AIProviderConfig.
Variable service : nat -> string -> AI.Attempt.

(** [userId] is a number; zero is the one that is falsy.  The tables are
    taken to answer during the call: the table of exercises is read, the
    attempt is appended.  A score that is not a number is refused by the
    persistence layer when the attempt is stored.  The sandbox is the one
    of [run]: what happens to the process after a sandbox timeout is not
    part of the value returned here. *)
Definition evaluateSubmission (userId : Z) (evaluateDto : EvaluateDto) (st : State)
    : (EvaluationResult + HttpException) * State :=
  let exerciseId := dto_exerciseId evaluateDto in
  let sql := dto_sql evaluateDto in
  let mode := dto_mode evaluateDto in
  if userId =? 0 then (inr (BadRequestException "Valid user ID is required"), st)
  else
    match List.find (fun e => String.eqb (exercise_id e) exerciseId) exercises with
    | None =>
        (inr (NotFoundException
                ("Exercise with id " ++ JSON.dquote ++ exerciseId ++ JSON.dquote
                 ++ " not found")), st)
    | Some exercise =>
        if negb (truthy (trim sql))
        then (inr (BadRequestException "SQL query cannot be empty"), st)
        else
          let validationResult :=
            run engine current_timestamp elapsed (trim sql)
              {| opt_timeout := Some 5000; opt_maxRows := Some 100 |} in
          let isCorrect :=
            match error validationResult with None => true | Some _ => false end in
          let '(completion, ai') :=
            generateFeedback config service
              (aiContext exercise sql validationResult isCorrect) (ai_state st) in
          let '(aiFeedback, aiSuggestions) :=
            match completion with
            | Returned aiResponse =>
                (feedback aiResponse, default [] (suggestions aiResponse))
            | Threw _ =>
                (generateValidatorFeedback sql mode (result validationResult)
                   (error validationResult), [])
            end in
          match calculateScore isCorrect (exercise_difficulty exercise) with
          | None => (inr PersistenceError, {| ai_state := ai'; attempts := attempts st |})
          | Some score =>
              let attempt :=
                {| attempt_userId := userId;
                   attempt_exerciseId := exerciseId;
                   attempt_sql := trim sql;
                   attempt_isCorrect := isCorrect;
                   attempt_feedback := aiFeedback;
                   attempt_result := result validationResult;
                   attempt_score := score |} in
              (inl {| eval_isCorrect := isCorrect;
                      eval_feedback := attempt_feedback attempt;
                      resultPreview := attempt_result attempt;
                      nextSuggestion :=
                        {| suggestion_type := if isCorrect then "difficulty_up" else "hint";
                           suggestedExerciseId :=
                             if isCorrect then findNextExercise (Some exercises) exercise
                             else None;
                           suggestion_list := aiSuggestions |} |},
               {| ai_state := ai'; attempts := attempts st ++ [attempt] |})
          end
    end.

End Evaluation.

End Practice.

(** A text is an instance of a pattern: each word is there in some case,
    each [\s+] is a run of one or more white code units. *)
Inductive instance_of : Tutor.Pattern -> string -> Prop :=
| instance_end : instance_of [] EmptyString
| instance_word word p occurrence rest :
    eq_ignore_case occurrence word ->
    instance_of p rest ->
    instance_of (Tutor.Lit word :: p) (occurrence ++ rest)
| instance_spaces p gap rest :
    gap <> EmptyString ->
    all_chars is_white gap = true ->
    instance_of p rest ->
    instance_of (Tutor.Spaces :: p) (gap ++ rest).

(** An instance of the pattern occurs somewhere in the message. *)
Definition phrase_occurs (p : Tutor.Pattern) (message : string) : Prop :=
  exists before phrase after,
    message = before ++ phrase ++ after /\ instance_of p phrase.

(** Concrete surroundings for the practice service: a lesson of three
    exercises and a fresh state. *)
Definition example_exercises : list Practice.Exercise :=
  [{| Practice.exercise_id := "ex-3"; Practice.exercise_lessonId := "lesson-1";
      Practice.exercise_prompt := "Count the users";
      Practice.exercise_expectedSql := None;
      Practice.exercise_expectedResult := None;
      Practice.exercise_difficulty := "intermediate";
      Practice.exercise_orderIndex := 3 |};
   {| Practice.exercise_id := "ex-1"; Practice.exercise_lessonId := "lesson-1";
      Practice.exercise_prompt := "Select all columns from the users table.";
      Practice.exercise_expectedSql := Some "SELECT * FROM users;";
      Practice.exercise_expectedResult := None;
      Practice.exercise_difficulty := "intro";
      Practice.exercise_orderIndex := 1 |};
   {| Practice.exercise_id := "ex-2"; Practice.exercise_lessonId := "lesson-1";
      Practice.exercise_prompt := "Select the names";
      Practice.exercise_expectedSql := None;
      Practice.exercise_expectedResult := None;
      Practice.exercise_difficulty := "beginner";
      Practice.exercise_orderIndex := 2 |}].

Definition fresh_practice : Practice.State :=
  {| Practice.ai_state := fresh_state; Practice.attempts := [] |}.

(** A code unit below 128: on texts of such code units the case mappings
    of this development are those of JavaScript. *)
Definition is_ascii (c : ascii) : bool := (nat_of_ascii c <? 128)%nat.

(** * Properties *)

(** ** Strings *)

Section StringFacts.

Lemma append_cons c s t : String c s ++ t = String c (s ++ t).
Proof. reflexivity. Qed.

Lemma append_nil_r s : s ++ "" = s.
Proof. induction s as [|c s IH]; [reflexivity|]. now rewrite append_cons, IH. Qed.

Lemma append_assoc s t u : (s ++ t) ++ u = s ++ t ++ u.
Proof.
  induction s as [|c s IH]; [reflexivity|].
  now rewrite !append_cons, IH.
Qed.

Lemma map_chars_append f a b :
  map_chars f (a ++ b) = map_chars f a ++ map_chars f b.
Proof.
  induction a as [|c a IH]; [reflexivity|].
  rewrite append_cons. cbn [map_chars]. now rewrite IH.
Qed.

Lemma map_chars_append_inv f x a b :
  map_chars f x = a ++ b ->
  exists a' b', x = a' ++ b' /\ map_chars f a' = a /\ map_chars f b' = b.
Proof.
  revert x. induction a as [|c a IH]; intros x H.
  - exists "", x. auto.
  - rewrite append_cons in H. destruct x as [|d x]; [discriminate|].
    cbn [map_chars] in H. injection H as Hc Hx.
    destruct (IH _ Hx) as (a' & b' & -> & Ha & Hb).
    exists (String d a'), b'. cbn [map_chars]. rewrite Hc, Ha. auto.
Qed.

Lemma startsWith_append k post : startsWith (k ++ post) k = true.
Proof.
  induction k as [|c k IH]; [now destruct post|].
  rewrite append_cons. cbn [startsWith]. now rewrite Ascii.eqb_refl.
Qed.

Lemma startsWith_inv s k :
  startsWith s k = true -> exists post, s = k ++ post.
Proof.
  revert s. induction k as [|c k IH]; intros s H.
  - now exists s.
  - destruct s as [|d s]; [discriminate|]. cbn [startsWith] in H.
    destruct (Ascii.eqb_spec c d) as [->|]; [|discriminate].
    destruct (IH _ H) as [post ->]. now exists post.
Qed.

Lemma includes_startsWith s k : startsWith s k = true -> includes s k = true.
Proof. intros H. destruct s; cbn [includes]; now rewrite H. Qed.

Lemma includes_append pre k post : includes (pre ++ k ++ post) k = true.
Proof.
  induction pre as [|c pre IH].
  - change ("" ++ k ++ post) with (k ++ post).
    apply includes_startsWith, startsWith_append.
  - rewrite append_cons. cbn [includes]. rewrite IH. apply orb_true_r.
Qed.

Lemma includes_inv s k :
  includes s k = true -> exists pre post, s = pre ++ k ++ post.
Proof.
  induction s as [|c s IH]; cbn [includes]; intros H.
  - rewrite orb_false_r in H. destruct (startsWith_inv _ _ H) as [post E].
    now exists "", post.
  - apply orb_true_iff in H as [H|H].
    + destruct (startsWith_inv _ _ H) as [post E]. now exists "", post.
    + destruct (IH H) as (pre & post & ->). now exists (String c pre), post.
Qed.

Lemma upper_char_white c : is_white (upper_char c) = false -> is_white c = false.
Proof. destruct c as [[] [] [] [] [] [] [] []]; cbv; congruence. Qed.

Lemma all_chars_upper s :
  all_chars (fun c => negb (is_white c)) (toUpperCase s) = true ->
  all_chars (fun c => negb (is_white c)) s = true.
Proof.
  induction s as [|c s IH]; [reflexivity|].
  cbn. rewrite !andb_true_iff, !negb_true_iff.
  intros [Hc Hs]. split; [now apply upper_char_white | now apply IH].
Qed.

(** *** [trim] keeps every run of non-blank code units *)

Lemma trimStart_prefix s : exists l, s = l ++ trimStart s.
Proof.
  induction s as [|c s [l IH]]; [now exists ""|].
  cbn [trimStart]. destruct (is_white c).
  - exists (String c l). now rewrite append_cons, <- IH.
  - now exists "".
Qed.

Lemma trimEnd_suffix s : exists r, s = trimEnd s ++ r.
Proof.
  induction s as [|c s [r IH]]; [now exists ""|].
  cbn [trimEnd]. destruct (trimEnd s) as [|d t] eqn:E.
  - destruct (is_white c).
    + exists (String c s). reflexivity.
    + exists s. reflexivity.
  - exists r. now rewrite append_cons, <- IH.
Qed.

Lemma trim_substring s : exists l r, s = l ++ trim s ++ r.
Proof.
  destruct (trimStart_prefix s) as [l Hl].
  destruct (trimEnd_suffix (trimStart s)) as [r Hr].
  exists l, r. unfold trim. now rewrite <- Hr.
Qed.

Lemma trimStart_keep pre c s :
  is_white c = false ->
  exists pre', trimStart (pre ++ String c s) = pre' ++ String c s.
Proof.
  intros Hc. induction pre as [|d pre [pre' IH]].
  - exists "". cbn [trimStart]. change ("" ++ String c s) with (String c s).
    cbn [trimStart]. now rewrite Hc.
  - rewrite append_cons. cbn [trimStart]. destruct (is_white d).
    + now exists pre'.
    + now exists (String d pre).
Qed.

Lemma trimEnd_cons c t :
  trimEnd t <> "" -> trimEnd (String c t) = String c (trimEnd t).
Proof. intros H. cbn [trimEnd]. now destruct (trimEnd t). Qed.

Lemma trimEnd_append pre t :
  trimEnd t <> "" -> trimEnd (pre ++ t) = pre ++ trimEnd t.
Proof.
  intros H. induction pre as [|c pre IH]; [reflexivity|].
  rewrite !append_cons, trimEnd_cons; rewrite IH; [reflexivity|].
  destruct pre; [exact H | discriminate].
Qed.

Lemma trimEnd_keep s post :
  s <> "" ->
  all_chars (fun c => negb (is_white c)) s = true ->
  exists post', trimEnd (s ++ post) = s ++ post'.
Proof.
  induction s as [|c s IH]; [congruence|]. intros _ H.
  cbn [all_chars] in H. apply andb_true_iff in H as [Hc Hs].
  apply negb_true_iff in Hc. rewrite append_cons.
  destruct s as [|d s].
  - exists (trimEnd post). change ("" ++ post) with post.
    cbn [trimEnd]. destruct (trimEnd post); [now rewrite Hc | reflexivity].
  - destruct IH as [post' IH]; [discriminate | exact Hs |].
    exists post'. rewrite trimEnd_cons; rewrite IH; [reflexivity | discriminate].
Qed.

Lemma trim_keep pre s post :
  s <> "" ->
  all_chars (fun c => negb (is_white c)) s = true ->
  exists pre' post', trim (pre ++ s ++ post) = pre' ++ s ++ post'.
Proof.
  intros Hne Hs.
  destruct (trimEnd_keep s post Hne Hs) as [post' Hpost].
  destruct s as [|c s']; [congruence|].
  assert (Hc : is_white c = false).
  { cbn [all_chars] in Hs. apply andb_true_iff in Hs as [Hc _].
    now apply negb_true_iff in Hc. }
  rewrite append_cons.
  destruct (trimStart_keep pre c (s' ++ post) Hc) as [pre' Hpre].
  exists pre', post'. unfold trim. rewrite Hpre.
  rewrite <- append_cons, trimEnd_append; rewrite Hpost; [reflexivity|discriminate].
Qed.

End StringFacts.

(** ** The statement classifier *)

Lemma forbidden_keyword_shape keyword :
  In keyword FORBIDDEN_KEYWORDS ->
  toUpperCase keyword = keyword /\ keyword <> "" /\
  all_chars (fun c => negb (is_white c)) keyword = true.
Proof.
  unfold FORBIDDEN_KEYWORDS. cbn [In]. intros H.
  repeat (destruct H as [<- | H]; [repeat split; discriminate|]).
  destruct H.
Qed.

Lemma occurrence_in_trimmed sql keyword :
  In keyword FORBIDDEN_KEYWORDS ->
  contains_ignore_case sql keyword ->
  includes (toUpperCase (trim sql)) keyword = true.
Proof.
  intros Hin (before & occ & after & -> & Hocc).
  destruct (forbidden_keyword_shape _ Hin) as (Hup & Hne & Hblack).
  unfold eq_ignore_case in Hocc. rewrite Hup in Hocc.
  assert (Hocc_ne : occ <> "") by (intros ->; cbn in Hocc; congruence).
  assert (Hocc_black : all_chars (fun c => negb (is_white c)) occ = true)
    by (apply all_chars_upper; now rewrite Hocc).
  destruct (trim_keep before occ after Hocc_ne Hocc_black) as (pre' & post' & ->).
  unfold toUpperCase in *. rewrite !map_chars_append, Hocc.
  apply includes_append.
Qed.

Lemma included_occurs sql keyword :
  toUpperCase keyword = keyword ->
  includes (toUpperCase (trim sql)) keyword = true ->
  contains_ignore_case sql keyword.
Proof.
  intros Hup H. apply includes_inv in H as (pre & post & H).
  destruct (trim_substring sql) as (l & r & Hsql).
  apply map_chars_append_inv in H as (pre' & rest & Htrim & _ & H).
  apply map_chars_append_inv in H as (occ & post' & -> & Hocc & _).
  exists (l ++ pre'), occ, (post' ++ r). split.
  - rewrite Hsql at 1. rewrite Htrim. now rewrite !append_assoc.
  - unfold eq_ignore_case. now rewrite Hup.
Qed.

(** C1.  A text in which some keyword of the forbidden vocabulary occurs,
    at any position and in any mix of cases, is rejected by
    [preValidateSQL]: the answer carries no result and the reason
    "Operation not allowed: K. Only SELECT statements are permitted.",
    where K is a keyword of the vocabulary that occurs in the text; so the
    reason holds that keyword. *)
Theorem forbidden_keyword_rejected sql keyword :
  In keyword FORBIDDEN_KEYWORDS ->
  contains_ignore_case sql keyword ->
  exists matched reason,
    In matched FORBIDDEN_KEYWORDS /\
    contains_ignore_case sql matched /\
    preValidateSQL sql = {| error := Some reason; result := None |} /\
    reason = "Operation not allowed: " ++ matched
             ++ ". Only SELECT statements are permitted." /\
    includes reason matched = true.
Proof.
  intros Hin Hocc.
  pose proof (occurrence_in_trimmed _ _ Hin Hocc) as Hinc.
  unfold preValidateSQL.
  destruct (toUpperCase (trim sql)) as [|c t] eqn:Et.
  { destruct keyword; [|discriminate].
    now destruct (forbidden_keyword_shape _ Hin) as (_ & ? & _). }
  cbn [truthy negb].
  destruct (List.find _ FORBIDDEN_KEYWORDS) as [matched|] eqn:Ef.
  - apply List.find_some in Ef as [Hm Hi].
    exists matched, ("Operation not allowed: " ++ matched
                     ++ ". Only SELECT statements are permitted.").
    split; [exact Hm|]. split.
    { apply included_occurs; [now apply forbidden_keyword_shape | now rewrite Et]. }
    split; [reflexivity|]. split; [reflexivity|].
    apply includes_append.
  - apply List.find_none with (x := keyword) in Ef; [congruence | exact Hin].
Qed.

Lemma forbidden_keyword_rejected_witness :
  exists matched reason,
    In matched FORBIDDEN_KEYWORDS /\
    contains_ignore_case "select * from t where note = 'Dropbox'" matched /\
    preValidateSQL "select * from t where note = 'Dropbox'"
    = {| error := Some reason; result := None |} /\
    reason = "Operation not allowed: " ++ matched
             ++ ". Only SELECT statements are permitted." /\
    includes reason matched = true.
Proof.
  apply (forbidden_keyword_rejected
           "select * from t where note = 'Dropbox'" "DROP").
  - cbn. auto.
  - exists "select * from t where note = '", "Drop", "box'".
    split; reflexivity.
Defined.

(** The reason given at that input, in full. *)
Example forbidden_keyword_reason :
  preValidateSQL "select * from t where note = 'Dropbox'"
  = {| error := Some "Operation not allowed: DROP. Only SELECT statements are permitted.";
       result := None |}.
Proof. reflexivity. Qed.

(** A text whose second segment is blank has one statement and passes. *)
Example blank_segment_accepted :
  split ";" "SELECT 1; " = ["SELECT 1"; " "] /\
  preValidateSQL "SELECT 1; " = accept.
Proof. split; reflexivity. Qed.

(** C8 (as the code has it).  A text with more than one segment between
    separators that is not blank after trimming is rejected by
    [preValidateSQL]; "SELECT 1; SELECT 2;" is rejected with the reason
    "Multiple statements are not allowed. Please use a single SELECT
    statement." *)
Theorem multiple_statements_rejected :
  (forall sql, (1 < length (statements sql))%nat ->
               exists reason, preValidateSQL sql = reject reason) /\
  preValidateSQL "SELECT 1; SELECT 2;" = reject multiple_message.
Proof.
  split; [|reflexivity].
  intros sql H. unfold preValidateSQL.
  destruct (negb (truthy _)); [eauto|].
  destruct (List.find _ _); [eauto|].
  destruct (negb (List.existsb _ _)); [eauto|].
  destruct (Nat.ltb_spec 1 (length (statements sql))); [eauto | lia].
Qed.

Lemma multiple_statements_rejected_witness :
  exists reason, preValidateSQL "SELECT 1; SELECT 2" = reject reason.
Proof.
  apply (proj1 multiple_statements_rejected "SELECT 1; SELECT 2").
  cbv. lia.
Defined.

(** C8, as stated, fails: the reason given for "SELECT 1; SELECT 2;" is
    not the text "multiple statements not permitted", and a segment that
    holds only white space does not count as a statement. *)
Lemma multiple_statements_reason_differs :
  preValidateSQL "SELECT 1; SELECT 2;" <> reject "multiple statements not permitted" /\
  (List.Forall (fun segment => segment <> "") (split ";" "SELECT 1; ") /\
   (1 < length (split ";" "SELECT 1; "))%nat /\
   preValidateSQL "SELECT 1; " = accept).
Proof.
  split; [discriminate|].
  split; [repeat constructor; discriminate|].
  split; [cbv; lia | reflexivity].
Qed.

(** ** The sandbox executor *)

Lemma slice0_length {A} (a : list A) (n : Z) :
  0 <= n -> length (slice0 a n) = Nat.min (Z.to_nat n) (length a).
Proof.
  intros Hn. unfold slice0.
  destruct (Z.ltb_spec n 0); [lia|]. apply length_firstn.
Qed.

Lemma shape_rows_length engine_rows maxRows :
  length (rows (shape_rows engine_rows maxRows)) = length (slice0 engine_rows maxRows).
Proof. unfold shape_rows. cbn. now rewrite length_map. Qed.

Lemma shape_rows_width engine_rows maxRows :
  Forall (fun row => length row = length (columns (shape_rows engine_rows maxRows)))
         (rows (shape_rows engine_rows maxRows)).
Proof.
  unfold shape_rows. cbn. apply List.Forall_forall. intros row Hrow.
  apply in_map_iff in Hrow as (obj & <- & _). now rewrite length_map.
Qed.

Lemma execute_success_inv engine ts elapsed sql timeout maxRows r :
  executeSQLInSandbox engine ts elapsed sql timeout maxRows = success r ->
  elapsed < timeout /\
  exists engine_rows,
    engine (seed ts) sql = EngineRows engine_rows /\ r = shape_rows engine_rows maxRows.
Proof.
  unfold executeSQLInSandbox, success, reject.
  destruct (Z.leb_spec timeout elapsed); [discriminate|].
  destruct (engine (seed ts) sql) as [m|engine_rows]; [discriminate|].
  intros [= <-]. eauto.
Qed.

Lemma execute_rows engine ts elapsed sql timeout maxRows engine_rows :
  elapsed < timeout ->
  engine (seed ts) sql = EngineRows engine_rows ->
  executeSQLInSandbox engine ts elapsed sql timeout maxRows
    = success (shape_rows engine_rows maxRows).
Proof.
  intros Ht He. unfold executeSQLInSandbox.
  destruct (Z.leb_spec timeout elapsed); [lia|]. now rewrite He.
Qed.

(** C7.  For a row cap that is a count ([0 <= maxRows]): every result
    without error that [executeSQLInSandbox] produces has rows of exactly
    as many cells as there are columns and at most [maxRows] rows; and when
    the engine answers in time with more than [maxRows] rows, the outcome
    is a result without error of exactly [maxRows] rows. *)
Theorem success_result_invariant engine ts elapsed sql timeout maxRows :
  0 <= maxRows ->
  (forall r,
      executeSQLInSandbox engine ts elapsed sql timeout maxRows = success r ->
      Forall (fun row => length row = length (columns r)) (rows r) /\
      Z.of_nat (length (rows r)) <= maxRows) /\
  (forall engine_rows,
      elapsed < timeout ->
      engine (seed ts) sql = EngineRows engine_rows ->
      maxRows < Z.of_nat (length engine_rows) ->
      exists r,
        executeSQLInSandbox engine ts elapsed sql timeout maxRows = success r /\
        Z.of_nat (length (rows r)) = maxRows).
Proof.
  intros Hcap. split.
  - intros r Hr.
    apply execute_success_inv in Hr as (_ & engine_rows & _ & ->).
    split; [apply shape_rows_width|].
    rewrite shape_rows_length, slice0_length by exact Hcap. lia.
  - intros engine_rows Ht He Hmore.
    exists (shape_rows engine_rows maxRows).
    split; [now apply execute_rows|].
    rewrite shape_rows_length, slice0_length by exact Hcap. lia.
Qed.

Lemma success_result_invariant_witness :
  exists r,
    executeSQLInSandbox table_scan_engine "2025-08-28 16:31:14" 3
      "SELECT * FROM users" 5000 2 = success r /\
    Z.of_nat (length (rows r)) = 2.
Proof.
  apply (proj2 (success_result_invariant table_scan_engine "2025-08-28 16:31:14" 3
                  "SELECT * FROM users" 5000 2 ltac:(lia))
               (users (seed "2025-08-28 16:31:14"))).
  - lia.
  - reflexivity.
  - cbn. lia.
Defined.

(** Outside that domain: a negative cap drops rows from the end. *)
Example negative_cap_counts_from_the_end :
  slice0 [1; 2; 3] (-1) = [1; 2].
Proof. reflexivity. Qed.

(** C10.  The column names are read off the first row that is left after
    the cut to [maxRows]: with [maxRows = 0], whatever rows the engine
    answers with (in time), the outcome is the result with no column and
    no row. *)
Theorem zero_cap_empties_result engine ts elapsed sql timeout engine_rows :
  elapsed < timeout ->
  engine (seed ts) sql = EngineRows engine_rows ->
  executeSQLInSandbox engine ts elapsed sql timeout 0
    = success {| columns := []; rows := [] |}.
Proof.
  intros Ht He. rewrite (execute_rows _ _ _ _ _ _ _ Ht He).
  unfold shape_rows, slice0. cbn. reflexivity.
Qed.

Lemma zero_cap_empties_result_witness :
  executeSQLInSandbox table_scan_engine "2025-08-28 16:31:14" 3
    "SELECT * FROM users" 5000 0
    = success {| columns := []; rows := [] |}.
Proof.
  apply (zero_cap_empties_result table_scan_engine "2025-08-28 16:31:14" 3
           "SELECT * FROM users" 5000 (users (seed "2025-08-28 16:31:14"))).
  - lia.
  - reflexivity.
Defined.

(** With a positive cap the columns are those of the first row. *)
Example users_scan :
  executeSQLInSandbox table_scan_engine "2025-08-28 16:31:14" 3
    "SELECT * FROM users" 5000 1
  = success {| columns := ["id"; "name"; "email"; "age"; "created_at"];
               rows := [[CInt 1; CText "John Doe"; CText "john@example.com";
                         CInt 30; CText "2025-08-28 16:31:14"]] |}.
Proof. reflexivity. Qed.

(** Two fresh sandboxes differ in nothing but [created_at]. *)
Lemma seed_clock_free ts1 ts2 :
  forget_created_at (seed ts1) = forget_created_at (seed ts2).
Proof. reflexivity. Qed.

(** C4 (as the code has it).  Take two runs of the same query, each in a
    fresh sandbox, whenever they are seeded.  If the engine answers the
    query alike in both runs on stores that agree on everything but the
    [created_at] column of [users] (the query reads neither that column,
    the one seeded value taken from the clock, nor the clock or the random
    source of the engine), and both runs call back before the timeout,
    then the two results are the same. *)
Theorem clock_free_query_reproducible engine1 engine2 sql timeout maxRows ts1 ts2 e1 e2 :
  (forall db1 db2,
      forget_created_at db1 = forget_created_at db2 ->
      engine1 db1 sql = engine2 db2 sql) ->
  e1 < timeout -> e2 < timeout ->
  executeSQLInSandbox engine1 ts1 e1 sql timeout maxRows
  = executeSQLInSandbox engine2 ts2 e2 sql timeout maxRows.
Proof.
  intros Hfree H1 H2. unfold executeSQLInSandbox.
  destruct (Z.leb_spec timeout e1); [lia|].
  destruct (Z.leb_spec timeout e2); [lia|].
  now rewrite (Hfree (seed ts1) (seed ts2) (seed_clock_free ts1 ts2)).
Qed.

Lemma clock_free_query_reproducible_witness :
  executeSQLInSandbox table_scan_engine "2025-08-28 16:31:14" 3
    "SELECT * FROM products" 5000 100
  = executeSQLInSandbox table_scan_engine "2026-01-01 00:00:00" 4
      "SELECT * FROM products" 5000 100.
Proof.
  apply (clock_free_query_reproducible table_scan_engine table_scan_engine
           "SELECT * FROM products"
           5000 100 "2025-08-28 16:31:14" "2026-01-01 00:00:00" 3 4).
  - intros db1 db2 H. apply (f_equal products) in H. cbn in H.
    unfold table_scan_engine. cbn. now rewrite H.
  - lia.
  - lia.
Defined.

(** C4, as stated, fails: "SELECT * FROM users" passes the classifier, and
    run in two sandboxes seeded one second apart it gives different rows. *)
Lemma users_scan_depends_on_clock :
  preValidateSQL "SELECT * FROM users" = accept /\
  executeSQLInSandbox table_scan_engine "2025-08-28 16:31:14" 3
    "SELECT * FROM users" 5000 100
  <> executeSQLInSandbox table_scan_engine "2025-08-28 16:31:15" 3
       "SELECT * FROM users" 5000 100.
Proof. split; [reflexivity | discriminate]. Qed.

(** ** The result normalizer *)

(** *** Sorting with a comparator that is a total order *)

Section SortFacts.

Context {A : Type}.
Variable cmp : A -> A -> Z.

(** [a] may come before [b]. *)
Let before (a b : A) : Prop := cmp a b <= 0.

Hypothesis cmp_total : forall a b, cmp a b <= 0 \/ cmp b a <= 0.
Hypothesis cmp_trans : forall a b c, cmp a b <= 0 -> cmp b c <= 0 -> cmp a c <= 0.
Hypothesis cmp_antisym : forall a b, cmp a b <= 0 -> cmp b a <= 0 -> a = b.

Lemma sort_insert_permutation x l : Permutation (sort_insert cmp x l) (x :: l).
Proof.
  induction l as [|y l IH]; cbn [sort_insert]; [reflexivity|].
  destruct (cmp x y <=? 0); [reflexivity|].
  rewrite IH. apply perm_swap.
Qed.

Lemma sort_permutation l : Permutation (sort cmp l) l.
Proof.
  induction l as [|x l IH]; cbn [sort]; [reflexivity|].
  rewrite sort_insert_permutation. now apply perm_skip.
Qed.

Lemma sort_insert_sorted x l : Sorted before l -> Sorted before (sort_insert cmp x l).
Proof.
  induction 1 as [|y l Hl IH Hy]; cbn [sort_insert].
  - repeat constructor.
  - destruct (Z.leb_spec (cmp x y) 0) as [Hxy|Hxy].
    + constructor; [now constructor|]. now constructor.
    + constructor; [exact IH|].
      assert (Hyx : before y x) by (destruct (cmp_total x y); [lia|assumption]).
      destruct Hy as [|z l Hyz]; cbn [sort_insert].
      * now constructor.
      * destruct (cmp x z <=? 0); now constructor.
Qed.

Lemma sort_sorted l : Sorted before (sort cmp l).
Proof.
  induction l as [|x l IH]; cbn [sort]; [constructor|].
  now apply sort_insert_sorted.
Qed.

(** The sorted array does not depend on the order the items came in. *)
Lemma sort_of_permutation l1 l2 :
  Permutation l1 l2 -> sort cmp l1 = sort cmp l2.
Proof.
  intros Hperm.
  assert (Ht : Transitive before) by (intros a b c; apply cmp_trans).
  assert (Ha : AntiSymm eq before) by (intros a b; apply cmp_antisym).
  apply (Sorted_unique before); [apply sort_sorted | apply sort_sorted |].
  now rewrite !sort_permutation.
Qed.

End SortFacts.

Lemma sort_insert_map {A B} (f : A -> B) (cmp : B -> B -> Z) x l :
  map f (sort_insert (fun a b => cmp (f a) (f b)) x l)
  = sort_insert cmp (f x) (map f l).
Proof.
  induction l as [|y l IH]; cbn [sort_insert map]; [reflexivity|].
  destruct (cmp (f x) (f y) <=? 0); cbn [map]; [reflexivity|]. now rewrite IH.
Qed.

Lemma sort_map {A B} (f : A -> B) (cmp : B -> B -> Z) l :
  map f (sort (fun a b => cmp (f a) (f b)) l) = sort cmp (map f l).
Proof.
  induction l as [|x l IH]; cbn [sort map]; [reflexivity|].
  now rewrite sort_insert_map, IH.
Qed.

(** The order by code units is a total order. *)
Lemma string_compare_trans a : forall b c,
  String.compare a b <> Gt -> String.compare b c <> Gt -> String.compare a c <> Gt.
Proof.
  induction a as [|a0 a IH]; intros [|b0 b] [|c0 c]; cbn [String.compare];
    try congruence.
  unfold Ascii.compare.
  destruct (N.compare_spec (N_of_ascii a0) (N_of_ascii b0)),
           (N.compare_spec (N_of_ascii b0) (N_of_ascii c0)),
           (N.compare_spec (N_of_ascii a0) (N_of_ascii c0));
    try congruence; try lia.
  apply IH.
Qed.

Lemma compare_code_units_le a b :
  compare_code_units a b <= 0 <-> String.compare a b <> Gt.
Proof. unfold compare_code_units. destruct (String.compare a b); split; (lia || congruence). Qed.

Lemma compare_code_units_total a b :
  compare_code_units a b <= 0 \/ compare_code_units b a <= 0.
Proof.
  rewrite !compare_code_units_le, (String.compare_antisym a b).
  destruct (String.compare b a); cbn; auto; left; congruence.
Qed.

Lemma compare_code_units_trans a b c :
  compare_code_units a b <= 0 -> compare_code_units b c <= 0 ->
  compare_code_units a c <= 0.
Proof. rewrite !compare_code_units_le. apply string_compare_trans. Qed.

Lemma compare_code_units_antisym a b :
  compare_code_units a b <= 0 -> compare_code_units b a <= 0 -> a = b.
Proof.
  rewrite !compare_code_units_le, (String.compare_antisym a b).
  destruct (String.compare b a) eqn:E; cbn; try congruence.
  intros _ _. symmetry. now apply String.compare_eq_iff.
Qed.

(** What does hold of [normalizeResult]: under a collation that is a total
    order on texts, the key stays the same when the rows are shuffled and
    when the list of column names is shuffled, the cells left in place. *)
Lemma normalizeResult_shuffle (localeCompare : string -> string -> Z) r1 r2 :
  (forall a b, localeCompare a b <= 0 \/ localeCompare b a <= 0) ->
  (forall a b c, localeCompare a b <= 0 -> localeCompare b c <= 0 ->
                 localeCompare a c <= 0) ->
  (forall a b, localeCompare a b <= 0 -> localeCompare b a <= 0 -> a = b) ->
  Permutation (columns r1) (columns r2) ->
  Permutation (rows r1) (rows r2) ->
  normalizeResult localeCompare r1 = normalizeResult localeCompare r2.
Proof.
  intros Htotal Htrans Hantisym Hcols Hrows. unfold normalizeResult.
  rewrite !(sort_map json_of_row localeCompare).
  rewrite (sort_of_permutation compare_code_units compare_code_units_total
             compare_code_units_trans compare_code_units_antisym _ _ Hcols).
  rewrite (sort_of_permutation localeCompare Htotal Htrans Hantisym
             (map json_of_row (rows r1)) (map json_of_row (rows r2)));
    [reflexivity|].
  now apply Permutation_map.
Qed.

(** C2 (the code at a failing input).  A result and the same result with
    its two columns swapped get different keys, whatever the collation:
    the column names are sorted, the cells stay where they were. *)
Theorem column_shuffle_changes_key (localeCompare : string -> string -> Z) :
  let r := {| columns := ["id"; "name"];
              rows := [[CInt 1; CText "John Doe"]] |} in
  let shuffled := {| columns := ["name"; "id"];
                     rows := [[CText "John Doe"; CInt 1]] |} in
  shuffled = reorder_columns [1%nat; 0%nat] r /\
  normalizeResult localeCompare r
    = json_text "{'columns':['id','name'],'rows':[[1,'John Doe']]}" /\
  normalizeResult localeCompare shuffled
    = json_text "{'columns':['id','name'],'rows':[['John Doe',1]]}" /\
  normalizeResult localeCompare r <> normalizeResult localeCompare shuffled.
Proof.
  cbv zeta. repeat split; try reflexivity. discriminate.
Qed.


(** ** The feedback service *)

Section ServiceFacts.

Variable config : AIProviderConfig.
Variable service : nat -> string -> Attempt.
Variable context : SQLContext.

(** The retry loop against [first_answer]: it touches neither the cache
    nor the insert counter; it returns the parse of the first answer, after
    as many calls as it took to get it, or throws after all of them. *)
Lemma callAI_loop_spec prompt remaining :
  forall attempt lastError st,
  exists c st',
    callAI_loop config service context prompt remaining attempt lastError st = (c, st') /\
    responseCache st' = responseCache st /\
    inserts st' = inserts st /\
    match first_answer service prompt (outbound st) remaining with
    | Some (k, data_response) =>
        c = Returned (parseAIResponse (aiMessage_of data_response) context) /\
        outbound st' = S k
    | None =>
        (exists e, c = Threw e) /\
        outbound st' = (outbound st + remaining)%nat
    end.
Proof.
  induction remaining as [|remaining IH]; intros attempt lastError st.
  - cbn. eexists _, _. repeat split; eauto; lia.
  - cbn [callAI_loop first_answer]. cbv [try_catch bind fetch].
    destruct (outcome (service (outbound st) prompt)) as [e|[] status text [e|d]];
      cbn [readResponse negb]; cbv [throw ret].
    3: { eexists _, _. repeat split; reflexivity. }
    all: destruct (attempt <? maxRetries config)%nat; cbv [sleep].
    all: match goal with
         | |- context [callAI_loop _ _ _ _ _ ?a ?e ?s] =>
             destruct (IH a e s) as (c & st' & E & Hc & Hi & Hm)
         end.
    all: exists c, st'; rewrite E; cbn in Hc, Hi, Hm.
    all: split; [reflexivity|]; split; [exact Hc|]; split; [exact Hi|].
    all: destruct (first_answer service prompt (S (outbound st)) remaining)
           as [[k d0]|]; destruct Hm as [Hm1 Hm2]; split; auto; lia.
Qed.

Lemma first_answer_None prompt n : forall start,
  first_answer service prompt start n = None <->
  all_attempts_fail service prompt start n.
Proof.
  unfold all_attempts_fail.
  induction n as [|n IH]; intros start; cbn [first_answer].
  - split; [intros _ i Hi; lia | reflexivity].
  - split.
    + intros H i Hi.
      destruct i as [|i].
      * rewrite Nat.add_0_r.
        destruct (outcome (service start prompt)) as [e|[] ? ? [e|d]];
          try reflexivity; discriminate.
      * replace (start + S i)%nat with (S start + i)%nat by lia.
        apply (proj1 (IH (S start))); [|lia].
        destruct (outcome (service start prompt)) as [e|[] ? ? [e|d]];
          try exact H; discriminate.
    + intros H.
      assert (H0 := H 0%nat ltac:(lia)). rewrite Nat.add_0_r in H0.
      assert (Hrest : first_answer service prompt (S start) n = None).
      { apply IH. intros i Hi.
        replace (S start + i)%nat with (start + S i)%nat by lia.
        apply H. lia. }
      destruct (outcome (service start prompt)) as [e|[] ? ? [e|d]];
        try exact Hrest; discriminate.
Qed.

Lemma first_answer_Some prompt n : forall start k data_response,
  first_answer service prompt start n = Some (k, data_response) ->
  (start <= k < start + n)%nat /\
  (exists status statusText,
      outcome (service k prompt) = Responded true status statusText (BodyData data_response)) /\
  all_attempts_fail service prompt start (k - start).
Proof.
  unfold all_attempts_fail.
  induction n as [|n IH]; intros start k d; cbn [first_answer]; [discriminate|].
  destruct (outcome (service start prompt)) as [e|[] status text [e|d']] eqn:E.
  3: { intros [= <- <-]. split; [lia|]. split; [eauto|]. intros i Hi. lia. }
  all: intros H; destruct (IH _ _ _ H) as (Hk & Hout & Hfail).
  all: split; [lia|]; split; [exact Hout|].
  all: intros [|i] Hi;
    [rewrite Nat.add_0_r, E; reflexivity
    |replace (start + S i)%nat with (S start + i)%nat by lia; apply Hfail; lia].
Qed.

Lemma getCachedResponse_miss key st :
  cache_miss key st ->
  exists st0,
    getCachedResponse key st = (Returned None, st0) /\
    responseCache st0 = delete key (responseCache st) /\
    now st0 = now st /\ outbound st0 = outbound st /\ inserts st0 = inserts st.
Proof.
  unfold cache_miss, getCachedResponse.
  destruct (responseCache st !! key) as [cached|] eqn:E.
  - destruct (now st - timestamp cached <? CACHE_TTL); [discriminate|].
    intros _. eexists. repeat split; reflexivity.
  - intros _. exists st. repeat split; try reflexivity.
    symmetry. now apply delete_id.
Qed.

Lemma getCachedResponse_hit key st payload :
  fst (getCachedResponse key st) = Returned (Some payload) ->
  getCachedResponse key st = (Returned (Some payload), st).
Proof.
  unfold getCachedResponse.
  destruct (responseCache st !! key) as [cached|]; [|discriminate].
  destruct (now st - timestamp cached <? CACHE_TTL); [|discriminate].
  cbn. now intros [= ->].
Qed.

(** What one call of [generateFeedback] does, on a hit. *)
Lemma generateFeedback_hit st payload :
  fst (getCachedResponse (createCacheKey context) st) = Returned (Some payload) ->
  generateFeedback config service context st = (Returned payload, st).
Proof.
  intros H. apply getCachedResponse_hit in H.
  unfold generateFeedback, try_catch, bind. now rewrite H.
Qed.

(** What one call of [generateFeedback] does, on a miss. *)
Lemma generateFeedback_miss st :
  cache_miss (createCacheKey context) st ->
  exists payload st',
    generateFeedback config service context st = (Returned payload, st') /\
    match first_answer service (combinedPrompt context) (outbound st) (maxRetries config) with
    | Some (k, data_response) =>
        payload = parseAIResponse (aiMessage_of data_response) context /\
        outbound st' = S k /\
        inserts st' = S (inserts st) /\
        responseCache st' =
          <[createCacheKey context := {| response := payload; timestamp := now st' |}]>
            (delete (createCacheKey context) (responseCache st))
    | None =>
        payload = getFallbackResponse context /\
        outbound st' = (outbound st + maxRetries config)%nat /\
        inserts st' = inserts st /\
        responseCache st' = delete (createCacheKey context) (responseCache st)
    end.
Proof.
  intros Hmiss.
  destruct (getCachedResponse_miss _ _ Hmiss) as (st0 & E0 & Hc0 & Hn0 & Ho0 & Hi0).
  unfold generateFeedback, try_catch, bind. rewrite E0.
  unfold callAI. fold (combinedPrompt context).
  destruct (callAI_loop_spec (combinedPrompt context) (maxRetries config) 1%nat
              (Error "AI request failed") st0) as (c & st1 & E1 & Hc1 & Hi1 & Hm).
  rewrite E1. rewrite Ho0 in Hm.
  destruct (first_answer service (combinedPrompt context) (outbound st)
              (maxRetries config)) as [[k d]|].
  - destruct Hm as [-> Hout]. cbv [cacheResponse ret].
    eexists _, _. split; [reflexivity|]. cbn.
    repeat split; congruence.
  - destruct Hm as [[e ->] Hout]. cbv [ret].
    eexists _, _. split; [reflexivity|].
    repeat split; congruence.
Qed.

End ServiceFacts.

(** The three feedback texts of the fallback rule are not empty. *)
Lemma fallback_feedback_nonempty context :
  feedback (getFallbackResponse context) <> "".
Proof.
  unfold getFallbackResponse.
  destruct (truthy_opt (validationError context)); [discriminate|].
  destruct (isCorrect context), (userResult context); discriminate.
Qed.

Lemma includes_empty s : includes s "" = true.
Proof. now destruct s. Qed.

(** With every attempt failing, a miss ends in the fallback payload. *)
Lemma generateFeedback_all_fail config service context st :
  cache_miss (createCacheKey context) st ->
  all_attempts_fail service (combinedPrompt context) (outbound st) (maxRetries config) ->
  fst (generateFeedback config service context st)
  = Returned (getFallbackResponse context).
Proof.
  intros Hmiss Hfail.
  destruct (generateFeedback_miss config service context st Hmiss)
    as (payload & st' & E & Hm).
  rewrite E. cbn [fst].
  apply first_answer_None in Hfail. rewrite Hfail in Hm.
  now destruct Hm as [-> _].
Qed.

(** C3 (as the code has it).  On a cache miss: when every one of the
    [maxRetries] attempts fails, [generateFeedback] returns the payload of
    the fallback rule; when the first attempt that does not fail answers
    with no response text (the field absent or empty), it returns the parse
    of the placeholder "No response from AI", not the fallback payload. *)
Theorem exhausted_retries_fall_back config service context st :
  cache_miss (createCacheKey context) st ->
  (all_attempts_fail service (combinedPrompt context) (outbound st) (maxRetries config) ->
   fst (generateFeedback config service context st)
   = Returned (getFallbackResponse context)) /\
  (forall k data_response,
      first_answer service (combinedPrompt context) (outbound st) (maxRetries config)
      = Some (k, data_response) ->
      truthy_opt data_response = false ->
      fst (generateFeedback config service context st)
      = Returned {| feedback := "No response from AI";
                    suggestions := Some [];
                    explanation := Some "";
                    nextSteps := Some [] |}).
Proof.
  intros Hmiss. split.
  - now apply generateFeedback_all_fail.
  - destruct (generateFeedback_miss config service context st Hmiss)
      as (payload & st' & E & Hm).
    rewrite E. cbn [fst].
    intros k d Hk Hd. rewrite Hk in Hm. destruct Hm as [-> _].
    unfold aiMessage_of. now rewrite Hd.
Qed.

Lemma exhausted_retries_fall_back_witness :
  fst (generateFeedback example_config service_down failed_context fresh_state)
  = Returned (getFallbackResponse failed_context).
Proof.
  apply (proj1 (exhausted_retries_fall_back example_config service_down
                  failed_context fresh_state ltac:(reflexivity))).
  intros i Hi. reflexivity.
Defined.

(** C3, as stated, fails: a service that answers OK with an empty response
    text makes [generateFeedback] return the placeholder payload, which is
    not the fallback payload of the context. *)
Lemma silent_service_is_not_a_fallback :
  cache_miss (createCacheKey failed_context) fresh_state /\
  outcome (service_silent 0%nat (combinedPrompt failed_context))
  = Responded true 200 "OK" (BodyData (Some "")) /\
  fst (generateFeedback example_config service_silent failed_context fresh_state)
  = Returned (parseAIResponse "No response from AI" failed_context) /\
  fst (generateFeedback example_config service_silent failed_context fresh_state)
  <> Returned (getFallbackResponse failed_context).
Proof.
  split; [reflexivity|]. split; [reflexivity|]. split; [reflexivity|].
  vm_compute. discriminate.
Qed.

(** A response text of white space alone is parsed to an empty feedback. *)
Example blank_answer_gives_empty_feedback context :
  feedback (parseAIResponse (aiMessage_of (Some "   ")) context) = "".
Proof. reflexivity. Qed.

(** C5 (as the code has it).  On a hit, [generateFeedback] returns the
    cached payload and changes nothing: no outbound call, no insert.  On a
    miss it makes at most [maxRetries] outbound calls and at most one
    insert; a payload parsed from an answer of the service is inserted
    under the key of the context, stamped with the clock, before it is
    returned; the fallback payload is returned without an insert. *)
Theorem feedback_effects config service context st :
  let key := createCacheKey context in
  (forall payload,
      fst (getCachedResponse key st) = Returned (Some payload) ->
      generateFeedback config service context st = (Returned payload, st)) /\
  (cache_miss key st ->
   exists payload st',
     generateFeedback config service context st = (Returned payload, st') /\
     (outbound st' <= outbound st + maxRetries config)%nat /\
     (inserts st' <= inserts st + 1)%nat /\
     ((all_attempts_fail service (combinedPrompt context) (outbound st) (maxRetries config) /\
       payload = getFallbackResponse context /\
       inserts st' = inserts st /\
       responseCache st' = delete key (responseCache st)) \/
      ((exists k data_response,
           first_answer service (combinedPrompt context) (outbound st) (maxRetries config)
           = Some (k, data_response) /\
           payload = parseAIResponse (aiMessage_of data_response) context) /\
       inserts st' = S (inserts st) /\
       responseCache st' !! key = Some {| response := payload; timestamp := now st' |} /\
       forall other, other <> key ->
                     responseCache st' !! other = responseCache st !! other))).
Proof.
  cbv zeta. split.
  - intros payload H. now apply generateFeedback_hit.
  - intros Hmiss.
    destruct (generateFeedback_miss config service context st Hmiss)
      as (payload & st' & E & Hm).
    exists payload, st'. split; [exact E|].
    destruct (first_answer service (combinedPrompt context) (outbound st)
                (maxRetries config)) as [[k d]|] eqn:Ef.
    + destruct Hm as (Hp & Ho & Hi & Hc).
      apply first_answer_Some in Ef as Hk. destruct Hk as (Hk & _ & _).
      split; [lia|]. split; [lia|]. right.
      split; [eauto|]. split; [exact Hi|]. rewrite Hc. split.
      * apply lookup_insert_eq.
      * intros other Hne.
        rewrite lookup_insert_ne, lookup_delete_ne by congruence. reflexivity.
    + destruct Hm as (Hp & Ho & Hi & Hc).
      split; [lia|]. split; [lia|]. left.
      split; [now apply first_answer_None|]. auto.
Qed.

Lemma feedback_effects_witness :
  exists payload st',
    generateFeedback example_config service_helpful failed_context fresh_state
    = (Returned payload, st') /\
    feedback payload = "Looks good." /\
    outbound st' = 1%nat /\ inserts st' = 1%nat /\
    responseCache st' !! createCacheKey failed_context
    = Some {| response := payload; timestamp := now st' |}.
Proof.
  destruct (proj2 (feedback_effects example_config service_helpful
                     failed_context fresh_state) ltac:(reflexivity))
    as (payload & st' & E & _).
  exists payload, st'. split; [exact E|].
  vm_compute in E. injection E as <- <-. repeat split.
Defined.

(** C5, as stated, fails: with the service down the fallback payload is
    returned and nothing is inserted; the key of the context is absent from
    the cache afterwards. *)
Lemma fallback_is_not_cached :
  let res := generateFeedback example_config service_down failed_context fresh_state in
  cache_miss (createCacheKey failed_context) fresh_state /\
  fst res = Returned (getFallbackResponse failed_context) /\
  inserts (snd res) = inserts fresh_state /\
  responseCache (snd res) !! createCacheKey failed_context = None.
Proof. vm_compute. repeat split. Qed.

(** C6.  With every attempt failing, [generateFeedback] still returns a
    payload, and its feedback is not empty; exactly one case of the
    fallback rule applies to a context, and it gives the payload of
    [getFallbackResponse]; the fallback feedback of a context with a
    validation error contains the text of that error. *)
Theorem fallback_total config service context st :
  (cache_miss (createCacheKey context) st ->
   all_attempts_fail service (combinedPrompt context) (outbound st) (maxRetries config) ->
   exists payload,
     fst (generateFeedback config service context st) = Returned payload /\
     feedback payload <> "") /\
  (exists! c, case_applies c context) /\
  (forall c, case_applies c context ->
             getFallbackResponse context = case_payload c context) /\
  (forall validation_error,
      validationError context = Some validation_error ->
      includes (feedback (getFallbackResponse context)) validation_error = true).
Proof.
  split; [|split; [|split]].
  - intros Hmiss Hfail. exists (getFallbackResponse context). split.
    + now apply generateFeedback_all_fail.
    + apply fallback_feedback_nonempty.
  - destruct (truthy_opt (validationError context)) eqn:Ee;
      [|destruct (isCorrect context) eqn:Ec;
        [destruct (userResult context) as [r|] eqn:Er|]].
    + exists ErrorCase. split; [exact Ee|].
      intros [] H; cbn in H; [reflexivity| |]; destruct H; congruence.
    + exists SuccessCase. split; [cbn; rewrite Er; repeat split; congruence|].
      intros [] H; cbn in H; [congruence|reflexivity|].
      destruct H as [_ [H|H]]; congruence.
    + exists UnavailableCase. split; [cbn; auto|].
      intros [] H; cbn in H; [congruence| |reflexivity].
      destruct H as (_ & _ & H). congruence.
    + exists UnavailableCase. split; [cbn; auto|].
      intros [] H; cbn in H; [congruence| |reflexivity].
      destruct H as (_ & H & _). congruence.
  - intros [] H; cbn in H; unfold getFallbackResponse, case_payload.
    + now rewrite H.
    + destruct H as (-> & -> & H).
      destruct (userResult context); [reflexivity|congruence].
    + destruct H as (-> & [-> | ->]); [reflexivity|].
      now destruct (isCorrect context).
  - intros e He. unfold getFallbackResponse. rewrite He.
    destruct e as [|c e]; [apply includes_empty|].
    cbn [truthy_opt truthy default fallback feedback].
    unfold error_feedback. apply includes_append.
Qed.

Lemma fallback_total_witness :
  includes
    (feedback (getFallbackResponse failed_context))
    "SQL Error: no such table: orders" = true /\
  exists payload,
    fst (generateFeedback example_config service_down failed_context fresh_state)
    = Returned payload /\
    feedback payload <> "".
Proof.
  destruct (fallback_total example_config service_down failed_context fresh_state)
    as (Hret & _ & _ & Hinc).
  split.
  - apply Hinc. reflexivity.
  - apply Hret; [reflexivity|]. intros i Hi. reflexivity.
Defined.

(** ** The feedback cache *)

(** C9 (as the code has it).  The time to live is one hour.  A lookup of
    an entry whose age has reached it (one hour or more) reports a miss and
    removes the entry, and nothing else changes; a lookup of an entry
    younger than that returns the stored payload and changes nothing;
    [cacheResponse] stores the payload under the key with the reading of
    the clock, whatever was there, and leaves the other keys as they
    were. *)
Theorem cache_contract key st :
  CACHE_TTL = 3600000 /\
  (forall entry,
      responseCache st !! key = Some entry ->
      CACHE_TTL <= now st - timestamp entry ->
      exists st',
        getCachedResponse key st = (Returned None, st') /\
        responseCache st' = delete key (responseCache st) /\
        responseCache st' !! key = None /\
        now st' = now st /\ outbound st' = outbound st /\ inserts st' = inserts st) /\
  (forall entry,
      responseCache st !! key = Some entry ->
      now st - timestamp entry < CACHE_TTL ->
      getCachedResponse key st = (Returned (Some (response entry)), st)) /\
  (forall payload,
      exists st',
        cacheResponse key payload st = (Returned tt, st') /\
        responseCache st' !! key
        = Some {| response := payload; timestamp := now st |} /\
        (forall other, other <> key ->
                       responseCache st' !! other = responseCache st !! other) /\
        now st' = now st /\ outbound st' = outbound st).
Proof.
  split; [reflexivity|]. split; [|split].
  - intros entry He Hold. unfold getCachedResponse. rewrite He.
    destruct (Z.ltb_spec (now st - timestamp entry) CACHE_TTL); [lia|].
    eexists. split; [reflexivity|]. cbn.
    repeat split. apply lookup_delete_eq.
  - intros entry He Hyoung. unfold getCachedResponse. rewrite He.
    destruct (Z.ltb_spec (now st - timestamp entry) CACHE_TTL); [reflexivity|lia].
  - intros payload. unfold cacheResponse. eexists. split; [reflexivity|]. cbn.
    split; [apply lookup_insert_eq|]. split; [|split; reflexivity].
    intros other Hne. now apply lookup_insert_ne.
Qed.

Lemma cache_contract_witness :
  (exists st',
      getCachedResponse "key" (state_at 3600000) = (Returned None, st') /\
      responseCache st' !! "key" = None) /\
  getCachedResponse "key" (state_at 3599999)
  = (Returned (Some (getFallbackResponse failed_context)), state_at 3599999).
Proof.
  split.
  - destruct (proj1 (proj2 (cache_contract "key" (state_at 3600000)))
                {| response := getFallbackResponse failed_context; timestamp := 0 |}
                ltac:(reflexivity) ltac:(discriminate))
      as (st' & E & _ & Hnone & _).
    exists st'. split; assumption.
  - apply (proj1 (proj2 (proj2 (cache_contract "key" (state_at 3599999))))
             {| response := getFallbackResponse failed_context; timestamp := 0 |});
      reflexivity.
Defined.

(** C9, as stated, fails at the boundary: an entry whose age is exactly the
    time to live does not exceed it, yet the lookup reports a miss and
    removes the entry. *)
Lemma entry_of_age_ttl_is_expired :
  let st := state_at 3600000 in
  responseCache st !! "key"
  = Some {| response := getFallbackResponse failed_context; timestamp := 0 |} /\
  now st - 0 = CACHE_TTL /\
  ~ (CACHE_TTL < now st - 0) /\
  fst (getCachedResponse "key" st) = Returned None /\
  responseCache (snd (getCachedResponse "key" st)) !! "key" = None.
Proof.
  cbv zeta. split; [reflexivity|]. split; [reflexivity|].
  split; [discriminate|]. split; reflexivity.
Qed.

(** * Further properties of the two services *)

(** ** More on trimming and splitting *)

Lemma map_chars_empty f s : map_chars f s = "" <-> s = "".
Proof. destruct s; split; (reflexivity || discriminate). Qed.

Lemma trimStart_empty_iff s : trimStart s = "" <-> all_chars is_white s = true.
Proof.
  induction s as [|c s IH]; cbn [trimStart all_chars]; [split; reflexivity|].
  destruct (is_white c); cbn [andb]; [exact IH|]. split; discriminate.
Qed.

Lemma trimEnd_empty_iff s : trimEnd s = "" <-> all_chars is_white s = true.
Proof.
  induction s as [|c s IH]; cbn [trimEnd all_chars]; [split; reflexivity|].
  destruct (trimEnd s) as [|d t].
  - destruct (is_white c); cbn [andb]; [|split; discriminate].
    split; intros _; [now apply IH | reflexivity].
  - split; [discriminate|]. intros H. apply andb_true_iff in H as [_ H].
    apply IH in H. discriminate.
Qed.

Lemma trimStart_head s c t : trimStart s = String c t -> is_white c = false.
Proof.
  induction s as [|d s IH]; cbn [trimStart]; [discriminate|].
  destruct (is_white d) eqn:E; [exact IH|]. now intros [= <- _].
Qed.

Lemma trim_empty_iff s : trim s = "" <-> all_chars is_white s = true.
Proof.
  unfold trim. rewrite trimEnd_empty_iff, <- (trimStart_empty_iff s).
  destruct (trimStart s) as [|c t] eqn:E; [split; reflexivity|].
  apply trimStart_head in E. cbn [all_chars]. rewrite E. cbn [andb].
  split; discriminate.
Qed.

Lemma trim_head s c t : trim s = String c t -> is_white c = false.
Proof.
  unfold trim. destruct (trimStart s) as [|d u] eqn:E; [discriminate|].
  apply trimStart_head in E. cbn [trimEnd].
  destruct (trimEnd u); [destruct (is_white d) eqn:Ed; [discriminate|]|];
    now intros [= <- _].
Qed.

(** The first piece that [split] gives is a prefix of the text that holds
    no separator and is followed by one, unless it is the whole text. *)
Lemma split_hd sep s :
  exists rest,
    s = List.hd "" (split sep s) ++ rest /\
    all_chars (fun c => negb (Ascii.eqb c sep)) (List.hd "" (split sep s)) = true /\
    (rest = "" \/ exists rest', rest = String sep rest').
Proof.
  induction s as [|c s (rest & Hs & Hno & Hrest)]; cbn [split].
  - exists "". auto.
  - destruct (Ascii.eqb_spec c sep) as [->|Hne].
    + exists (String sep s). cbn. eauto.
    + destruct (split sep s) as [|h t] eqn:E; cbn [List.hd] in *.
      * exists s. cbn. split; [reflexivity|].
        rewrite (proj2 (Ascii.eqb_neq c sep) Hne). cbn. split; [reflexivity|].
        rewrite Hs. exact Hrest.
      * exists rest. rewrite append_cons, <- Hs. cbn [all_chars].
        rewrite (proj2 (Ascii.eqb_neq c sep) Hne), Hno. auto.
Qed.

(** ** The statement classifier, rule by rule *)

(** Every verdict of the classifier is an acceptance or a rejection with a
    reason that is not empty. *)
Lemma preValidateSQL_cases sql :
  preValidateSQL sql = accept \/
  exists reason, reason <> "" /\ preValidateSQL sql = reject reason.
Proof.
  unfold preValidateSQL.
  destruct (negb (truthy _)); [right; eexists; split; [|reflexivity]; discriminate|].
  destruct (List.find _ _); [right; eexists; split; [|reflexivity]; discriminate|].
  destruct (negb (List.existsb _ _)); [right; eexists; split; [|reflexivity]; discriminate|].
  destruct (_ <? _)%nat; [right; eexists; split; [|reflexivity]; discriminate|].
  now left.
Qed.

(** X1.  The classifier answers "SQL query cannot be empty" exactly on the
    texts made of white space alone (the empty text among them). *)
Theorem blank_query_rejected sql :
  preValidateSQL sql = reject "SQL query cannot be empty" <->
  all_chars is_white sql = true.
Proof.
  rewrite <- trim_empty_iff. unfold preValidateSQL.
  destruct (toUpperCase (trim sql)) as [|c t] eqn:E.
  - apply map_chars_empty in E. cbn. tauto.
  - assert (Hne : trim sql <> "").
    { intros H. rewrite H in E. discriminate. }
    cbn [truthy negb].
    destruct (List.find _ _);
      [|destruct (negb (List.existsb _ _)); [|destruct (_ <? _)%nat]];
      (split; [discriminate | tauto]).
Qed.

Lemma no_forbidden_keyword_found sql :
  (forall keyword, In keyword FORBIDDEN_KEYWORDS -> ~ contains_ignore_case sql keyword) ->
  List.find (fun keyword => includes (toUpperCase (trim sql)) keyword) FORBIDDEN_KEYWORDS
  = None.
Proof.
  intros Hno. destruct (List.find _ _) as [k|] eqn:E; [|reflexivity].
  apply List.find_some in E as [Hin Hinc]. exfalso. apply (Hno k Hin).
  apply included_occurs; [now apply forbidden_keyword_shape | exact Hinc].
Qed.

(** X2.  An ASCII text that is not blank, holds no forbidden keyword and
    does not begin (after trimming, in any case) with SELECT is rejected,
    and the reason ends with its leading token in upper case: the non-empty
    run of the trimmed text up to its first space. *)
Theorem leading_verb_required sql :
  all_chars is_ascii sql = true ->
  all_chars is_white sql = false ->
  (forall keyword, In keyword FORBIDDEN_KEYWORDS -> ~ contains_ignore_case sql keyword) ->
  startsWith (toUpperCase (trim sql)) "SELECT" = false ->
  exists token rest,
    toUpperCase (trim sql) = token ++ rest /\
    token <> "" /\
    all_chars (fun c => negb (Ascii.eqb c " ")) token = true /\
    (rest = "" \/ exists rest', rest = String " " rest') /\
    preValidateSQL sql
    = reject ("Only SELECT statements are allowed. Found: " ++ token).
Proof.
  intros _ Hblank Hno Hverb.
  destruct (split_hd " " (toUpperCase (trim sql))) as (rest & Hs & Htok & Hrest).
  exists (List.hd "" (split " " (toUpperCase (trim sql)))), rest.
  assert (Hne : trim sql <> "").
  { intros H. apply trim_empty_iff in H. congruence. }
  split; [exact Hs|]. split; [|split; [exact Htok|split; [exact Hrest|]]].
  - intros Hempty. rewrite Hempty in Hs.
    destruct (trim sql) as [|c t] eqn:Et; [congruence|].
    apply trim_head in Et. cbn [toUpperCase map_chars] in Hs.
    destruct Hrest as [->|[rest' ->]]; [discriminate|].
    injection Hs as Hc _.
    destruct c as [[] [] [] [] [] [] [] []]; cbv in Hc, Et; congruence.
  - assert (Ht : truthy (toUpperCase (trim sql)) = true).
    { destruct (toUpperCase (trim sql)) eqn:E; [|reflexivity].
      apply map_chars_empty in E. congruence. }
    unfold preValidateSQL. rewrite Ht. cbn [negb].
    rewrite (no_forbidden_keyword_found sql Hno).
    cbn [ALLOWED_STATEMENTS List.existsb]. rewrite Hverb. reflexivity.
Qed.

Lemma leading_verb_required_witness :
  exists token rest,
    toUpperCase (trim "  show tables") = token ++ rest /\
    token <> "" /\
    all_chars (fun c => negb (Ascii.eqb c " ")) token = true /\
    (rest = "" \/ exists rest', rest = String " " rest') /\
    preValidateSQL "  show tables"
    = reject ("Only SELECT statements are allowed. Found: " ++ token).
Proof.
  apply (leading_verb_required "  show tables").
  - reflexivity.
  - reflexivity.
  - intros keyword Hin Hocc.
    pose proof (occurrence_in_trimmed _ _ Hin Hocc) as H.
    cbn [FORBIDDEN_KEYWORDS In] in Hin.
    repeat (destruct Hin as [<- | Hin]; [vm_compute in H; discriminate|]).
    destruct Hin.
  - reflexivity.
Defined.

(** X3.  What the classifier lets through: an accepted text holds no
    forbidden keyword in any case at any position, begins with SELECT once
    trimmed and upper-cased, and has at most one statement that is not
    blank. *)
Theorem accepted_text_is_single_select sql :
  preValidateSQL sql = accept ->
  (forall keyword, In keyword FORBIDDEN_KEYWORDS -> ~ contains_ignore_case sql keyword) /\
  (exists rest, toUpperCase (trim sql) = "SELECT" ++ rest) /\
  (length (statements sql) <= 1)%nat.
Proof.
  unfold preValidateSQL.
  destruct (negb (truthy _)); [discriminate|].
  destruct (List.find _ _) eqn:Ef; [discriminate|].
  cbn [ALLOWED_STATEMENTS List.existsb]. rewrite orb_false_r.
  destruct (startsWith _ "SELECT") eqn:Es; [|discriminate]. cbn [negb].
  destruct (Nat.ltb_spec 1 (length (statements sql))); [discriminate|].
  intros _. split; [|split; [now apply startsWith_inv | lia]].
  intros keyword Hin Hocc.
  pose proof (occurrence_in_trimmed _ _ Hin Hocc) as Hinc.
  apply List.find_none with (x := keyword) in Ef; [congruence | exact Hin].
Qed.

Lemma accepted_text_is_single_select_witness :
  (forall keyword, In keyword FORBIDDEN_KEYWORDS ->
                   ~ contains_ignore_case "select * from users;" keyword) /\
  (exists rest, toUpperCase (trim "select * from users;") = "SELECT" ++ rest) /\
  (length (statements "select * from users;") <= 1)%nat.
Proof.
  apply (accepted_text_is_single_select "select * from users;").
  reflexivity.
Defined.

(** *** The verdict does not depend on the case of the letters *)

Lemma is_white_upper c : is_white (upper_char c) = is_white c.
Proof. destruct c as [[] [] [] [] [] [] [] []]; reflexivity. Qed.

Lemma upper_char_idempotent c : upper_char (upper_char c) = upper_char c.
Proof. destruct c as [[] [] [] [] [] [] [] []]; reflexivity. Qed.

Lemma upper_char_separator c : Ascii.eqb (upper_char c) ";" = Ascii.eqb c ";".
Proof. destruct c as [[] [] [] [] [] [] [] []]; reflexivity. Qed.

Lemma toUpperCase_idempotent s : toUpperCase (toUpperCase s) = toUpperCase s.
Proof.
  induction s as [|c s IH]; [reflexivity|].
  cbn [toUpperCase map_chars] in *. now rewrite upper_char_idempotent, IH.
Qed.

Lemma trimStart_upper s : trimStart (toUpperCase s) = toUpperCase (trimStart s).
Proof.
  induction s as [|c s IH]; [reflexivity|].
  cbn [toUpperCase map_chars trimStart] in *. rewrite is_white_upper.
  now destruct (is_white c).
Qed.

Lemma trimEnd_upper s : trimEnd (toUpperCase s) = toUpperCase (trimEnd s).
Proof.
  induction s as [|c s IH]; [reflexivity|].
  cbn [toUpperCase map_chars trimEnd] in *. rewrite IH, is_white_upper.
  destruct (trimEnd s); cbn [map_chars]; [now destruct (is_white c) | reflexivity].
Qed.

Lemma trim_upper s : trim (toUpperCase s) = toUpperCase (trim s).
Proof. unfold trim. now rewrite trimStart_upper, trimEnd_upper. Qed.

Lemma split_upper s :
  split ";" (toUpperCase s) = map toUpperCase (split ";" s).
Proof.
  induction s as [|c s IH]; [reflexivity|].
  cbn [toUpperCase map_chars split] in *. rewrite upper_char_separator, IH.
  destruct (Ascii.eqb c ";"); [reflexivity|].
  now destruct (split ";" s).
Qed.

Lemma statements_upper s :
  length (statements (toUpperCase s)) = length (statements s).
Proof.
  unfold statements. rewrite split_upper.
  induction (split ";" s) as [|x l IH]; [reflexivity|].
  cbn [map List.filter]. rewrite trim_upper.
  replace (truthy (toUpperCase (trim x))) with (truthy (trim x))
    by now destruct (trim x).
  destruct (truthy (trim x)); cbn [length]; now rewrite IH.
Qed.

Lemma preValidateSQL_upper sql : preValidateSQL (toUpperCase sql) = preValidateSQL sql.
Proof.
  unfold preValidateSQL.
  now rewrite trim_upper, toUpperCase_idempotent, statements_upper.
Qed.

(** X4.  Two texts that differ only in the case of their letters get the
    same verdict, with the same reason. *)
Theorem verdict_ignores_case a b :
  eq_ignore_case a b -> preValidateSQL a = preValidateSQL b.
Proof.
  intros H. rewrite <- (preValidateSQL_upper a), <- (preValidateSQL_upper b).
  now rewrite H.
Qed.

Lemma verdict_ignores_case_witness :
  preValidateSQL "Select Name From Users; select 1"
  = preValidateSQL "SELECT name FROM users; SELECT 1".
Proof.
  apply (verdict_ignores_case "Select Name From Users; select 1"
           "SELECT name FROM users; SELECT 1").
  reflexivity.
Defined.

(** ** The validator's entry point *)

(** X5.  A text that the classifier rejects never reaches the engine: [run]
    answers with the classifier's rejection, whatever the engine, the clock
    and the options. *)
Theorem run_rejects_before_engine engine ts elapsed sql options reason :
  preValidateSQL sql = reject reason ->
  run engine ts elapsed sql options = reject reason.
Proof.
  intros H. unfold run. rewrite H.
  destruct (preValidateSQL_cases sql) as [Ha | (reason' & Hne & Hr)].
  - rewrite Ha in H. discriminate.
  - rewrite Hr in H. injection H as <-. cbn.
    destruct reason'; [congruence | reflexivity].
Qed.

Lemma run_rejects_before_engine_witness :
  run (fun _ _ => EngineRows []) "2025-08-28 16:31:14" 0 "DELETE FROM users"
      {| opt_timeout := None; opt_maxRows := None |}
  = reject (forbidden_message "DELETE").
Proof.
  apply (run_rejects_before_engine (fun _ _ => EngineRows [])
           "2025-08-28 16:31:14" 0 "DELETE FROM users"
           {| opt_timeout := None; opt_maxRows := None |}).
  reflexivity.
Defined.

(** X6.  A result of [run] without error comes from an accepted text, so
    one without forbidden keyword, answered by the engine before the
    timeout (5000 ms unless the options say otherwise), and shaped from the
    engine's rows under the row cap (1000 unless the options say
    otherwise). *)
Theorem run_success_sound engine ts elapsed sql options r :
  run engine ts elapsed sql options = success r ->
  preValidateSQL sql = accept /\
  (forall keyword, In keyword FORBIDDEN_KEYWORDS -> ~ contains_ignore_case sql keyword) /\
  elapsed < default 5000 (opt_timeout options) /\
  exists engine_rows,
    engine (seed ts) sql = EngineRows engine_rows /\
    r = shape_rows engine_rows (default 1000 (opt_maxRows options)).
Proof.
  unfold run.
  destruct (preValidateSQL_cases sql) as [Ha | (reason & Hne & Hr)].
  - rewrite Ha. cbn [error accept truthy_opt]. intros H.
    split; [reflexivity|]. split.
    + intros keyword Hin Hocc.
      pose proof (occurrence_in_trimmed _ _ Hin Hocc) as Hinc.
      revert Ha. unfold preValidateSQL.
      destruct (negb (truthy _)); [discriminate|].
      destruct (List.find _ _) eqn:Ef; [discriminate|].
      apply List.find_none with (x := keyword) in Ef; [congruence | exact Hin].
    + now apply execute_success_inv in H.
  - rewrite Hr. cbn [error reject truthy_opt].
    destruct reason; [congruence|]. discriminate.
Qed.

Lemma run_success_sound_witness :
  preValidateSQL "SELECT * FROM products" = accept /\
  (forall keyword, In keyword FORBIDDEN_KEYWORDS ->
                   ~ contains_ignore_case "SELECT * FROM products" keyword) /\
  3 < 5000 /\
  exists engine_rows,
    table_scan_engine (seed "2025-08-28 16:31:14") "SELECT * FROM products"
    = EngineRows engine_rows /\
    shape_rows (products (seed "2025-08-28 16:31:14")) 2
    = shape_rows engine_rows 2.
Proof.
  apply (run_success_sound table_scan_engine "2025-08-28 16:31:14" 3
           "SELECT * FROM products"
           {| opt_timeout := None; opt_maxRows := Some 2 |}).
  reflexivity.
Defined.

(** The two shapes of an answer of [run]. *)
Lemma run_cases engine ts elapsed sql options :
  (exists reason, reason <> "" /\ run engine ts elapsed sql options = reject reason) \/
  (exists r, run engine ts elapsed sql options = success r).
Proof.
  unfold run.
  destruct (preValidateSQL_cases sql) as [Ha | (reason & Hne & Hr)].
  - rewrite Ha. cbn [error accept truthy_opt]. unfold executeSQLInSandbox.
    destruct (_ <=? _); [left; eexists; split; [|reflexivity]; discriminate|].
    destruct (engine _ _); [left; eexists; split; [|reflexivity]; discriminate|].
    right. eexists. reflexivity.
  - rewrite Hr. cbn [error reject truthy_opt].
    destruct reason; [congruence|]. left. eexists. split; [|reflexivity]. discriminate.
Qed.

(** X7.  [run] answers with an error message that is not empty and no
    result, or with a result and no error: callers may test the error for
    [null] or for truthiness alike. *)
Theorem run_error_or_result engine ts elapsed sql options :
  (exists reason, reason <> "" /\ run engine ts elapsed sql options = reject reason) \/
  (exists r, run engine ts elapsed sql options = success r).
Proof. apply run_cases. Qed.

(** ** Shaping the engine's rows *)

Lemma get_prop_present row col v :
  List.NoDup (keys row) -> In (col, v) row -> get_prop row col = v.
Proof.
  induction row as [|[k w] row IH]; cbn [keys map get_prop In]; [tauto|].
  intros Hnd [H|H].
  - injection H as -> ->. now rewrite String.eqb_refl.
  - apply NoDup_cons_iff in Hnd as [Hk Hnd].
    destruct (String.eqb_spec k col) as [->|_]; [|now apply IH].
    exfalso. apply Hk. apply in_map_iff. now exists (col, v).
Qed.

Lemma get_prop_absent row col : ~ In col (keys row) -> get_prop row col = CUndefined.
Proof.
  induction row as [|[k w] row IH]; cbn [keys map get_prop In]; [reflexivity|].
  intros H. destruct (String.eqb_spec k col) as [->|_]; [tauto|]. apply IH. tauto.
Qed.

Lemma get_prop_keys row :
  List.NoDup (keys row) -> map (fun col => get_prop row col) (keys row) = map snd row.
Proof.
  intros Hnd. unfold keys. rewrite map_map. apply map_ext_in.
  intros [k v] Hin. now apply get_prop_present.
Qed.

(** X8.  With a positive cap, the columns are the keys of the first row,
    and a row whose keys are those keys in the same order is turned into
    its values in that order; in any row, the cell of a column is the value
    the row holds under that name, and [undefined] when it holds none. *)
Theorem shaped_rows_follow_columns first others maxRows :
  0 < maxRows ->
  List.NoDup (keys first) ->
  let r := shape_rows (first :: others) maxRows in
  columns r = keys first /\
  (Forall (fun row => keys row = keys first) others ->
   rows r = map (map snd) (slice0 (first :: others) maxRows)) /\
  (forall i row cells,
      nth_error (slice0 (first :: others) maxRows) i = Some row ->
      nth_error (rows r) i = Some cells ->
      length cells = length (keys first) /\
      forall j col, nth_error (keys first) j = Some col ->
        (forall v, List.NoDup (keys row) -> In (col, v) row -> nth_error cells j = Some v) /\
        (~ In col (keys row) -> nth_error cells j = Some CUndefined)).
Proof.
  intros Hcap Hnd r. subst r. unfold shape_rows.
  assert (Hslice : exists tail, slice0 (first :: others) maxRows = first :: tail
                                /\ incl tail others).
  { unfold slice0. destruct (Z.ltb_spec maxRows 0); [lia|].
    destruct (Z.to_nat maxRows) as [|n] eqn:E; [lia|]. cbn [firstn].
    eexists. split; [reflexivity|].
    intros x Hx. rewrite <- (firstn_skipn n others). apply in_or_app. now left. }
  destruct Hslice as (tail & -> & Htail). cbn [columns rows].
  split; [reflexivity|]. split.
  - intros Hsame. cbn [map]. f_equal; [now apply get_prop_keys|].
    apply map_ext_in. intros row Hin.
    assert (Hk : keys row = keys first).
    { rewrite List.Forall_forall in Hsame. apply Hsame, Htail, Hin. }
    rewrite <- Hk. apply get_prop_keys. now rewrite Hk.
  - intros i row cells Hrow Hcells.
    rewrite nth_error_map, Hrow in Hcells. cbn in Hcells.
    injection Hcells as <-. split; [apply length_map|].
    intros j col Hcol. rewrite nth_error_map, Hcol. cbn.
    split.
    + intros v Hndr Hin. now rewrite (get_prop_present row col v).
    + intros Hno. now rewrite get_prop_absent.
Qed.

Lemma shaped_rows_follow_columns_witness :
  columns (shape_rows [[("a", CInt 1); ("b", CInt 2)]; [("b", CInt 4); ("a", CInt 3)]] 10)
  = ["a"; "b"] /\
  rows (shape_rows [[("a", CInt 1); ("b", CInt 2)]; [("b", CInt 4); ("a", CInt 3)]] 10)
  = [[CInt 1; CInt 2]; [CInt 3; CInt 4]].
Proof.
  destruct (shaped_rows_follow_columns
              [("a", CInt 1); ("b", CInt 2)] [[("b", CInt 4); ("a", CInt 3)]] 10
              ltac:(lia)
              ltac:(repeat constructor; cbn; intuition discriminate))
    as (Hcols & _ & _).
  split; [exact Hcols | reflexivity].
Defined.

(** X9.  A negative row cap is no cap: [slice] then counts from the end, so
    the result keeps all the engine's rows but the last [-maxRows] ones. *)
Theorem negative_cap_drops_tail engine ts elapsed sql timeout maxRows engine_rows :
  maxRows < 0 ->
  elapsed < timeout ->
  engine (seed ts) sql = EngineRows engine_rows ->
  exists r,
    executeSQLInSandbox engine ts elapsed sql timeout maxRows = success r /\
    Z.of_nat (length (rows r)) = Z.max 0 (Z.of_nat (length engine_rows) + maxRows).
Proof.
  intros Hneg Ht He. exists (shape_rows engine_rows maxRows).
  split; [now apply execute_rows|].
  rewrite shape_rows_length. unfold slice0.
  destruct (Z.ltb_spec maxRows 0); [|lia]. rewrite length_firstn. lia.
Qed.

Lemma negative_cap_drops_tail_witness :
  exists r,
    executeSQLInSandbox table_scan_engine "2025-08-28 16:31:14" 3
      "SELECT * FROM users" 5000 (-2) = success r /\
    Z.of_nat (length (rows r)) = 3.
Proof.
  apply (negative_cap_drops_tail table_scan_engine "2025-08-28 16:31:14" 3
           "SELECT * FROM users" 5000 (-2) (users (seed "2025-08-28 16:31:14")));
    [lia | lia | reflexivity].
Defined.

(** ** The normalizer under shuffles that leave the cells in place *)

(** X10.  Whatever the collation, the comparison key does not change when
    the list of column names is shuffled while the rows stay as they are:
    the key does not tell which column a cell belongs to, so two results
    that hold the same cells under swapped column names get one key. *)
Theorem normalized_key_ignores_column_order (localeCompare : string -> string -> Z) r1 r2 :
  Permutation (columns r1) (columns r2) ->
  rows r1 = rows r2 ->
  normalizeResult localeCompare r1 = normalizeResult localeCompare r2.
Proof.
  intros Hcols Hrows. unfold normalizeResult. rewrite Hrows.
  now rewrite (sort_of_permutation compare_code_units compare_code_units_total
                 compare_code_units_trans compare_code_units_antisym _ _ Hcols).
Qed.

Lemma normalized_key_ignores_column_order_witness :
  normalizeResult compare_code_units
    {| columns := ["id"; "age"]; rows := [[CInt 2; CInt 25]; [CInt 1; CInt 30]] |}
  = normalizeResult compare_code_units
      {| columns := ["age"; "id"]; rows := [[CInt 2; CInt 25]; [CInt 1; CInt 30]] |}.
Proof.
  apply (normalized_key_ignores_column_order compare_code_units
           {| columns := ["id"; "age"];
              rows := [[CInt 2; CInt 25]; [CInt 1; CInt 30]] |}
           {| columns := ["age"; "id"];
              rows := [[CInt 2; CInt 25]; [CInt 1; CInt 30]] |}).
  - apply perm_swap.
  - reflexivity.
Defined.

(** ** The feedback service, call after call *)

Lemma getCachedResponse_returns key st :
  (exists payload, fst (getCachedResponse key st) = Returned (Some payload)) \/
  cache_miss key st.
Proof.
  unfold cache_miss, getCachedResponse.
  destruct (responseCache st !! key) as [cached|]; [|now right].
  destruct (now st - timestamp cached <? CACHE_TTL); [left; eauto | now right].
Qed.

(** X11.  [generateFeedback] never throws: in every state and whatever the
    service does, it returns a payload, after at most [maxRetries] outbound
    calls and at most one insert, and the entries under other keys are as
    they were. *)
Theorem generateFeedback_always_returns config service context st :
  exists payload st',
    generateFeedback config service context st = (Returned payload, st') /\
    (outbound st <= outbound st' <= outbound st + maxRetries config)%nat /\
    (inserts st <= inserts st' <= inserts st + 1)%nat /\
    forall other, other <> createCacheKey context ->
                  responseCache st' !! other = responseCache st !! other.
Proof.
  destruct (getCachedResponse_returns (createCacheKey context) st)
    as [[payload Hhit] | Hmiss].
  - exists payload, st. rewrite (generateFeedback_hit _ _ _ _ _ Hhit).
    repeat split; lia.
  - destruct (generateFeedback_miss config service context st Hmiss)
      as (payload & st' & E & Hm).
    exists payload, st'. split; [exact E|].
    destruct (first_answer service (combinedPrompt context) (outbound st)
                (maxRetries config)) as [[k d]|] eqn:Ef.
    + destruct Hm as (_ & Ho & Hi & Hc).
      apply first_answer_Some in Ef as (Hk & _ & _).
      split; [lia|]. split; [lia|]. intros other Hne. rewrite Hc.
      rewrite lookup_insert_ne, lookup_delete_ne by congruence. reflexivity.
    + destruct Hm as (_ & Ho & Hi & Hc).
      split; [lia|]. split; [lia|]. intros other Hne. rewrite Hc.
      rewrite lookup_delete_ne by congruence. reflexivity.
Qed.

(** X12.  A payload that is stored and looked up [d] milliseconds later is
    found as long as [d] is less than the time to live, and the lookup
    changes nothing; from then on the lookup misses and removes it. *)
Theorem stored_payload_lives_one_ttl key payload d st :
  let later := snd (sleep d (snd (cacheResponse key payload st))) in
  (d < CACHE_TTL ->
   getCachedResponse key later = (Returned (Some payload), later)) /\
  (CACHE_TTL <= d ->
   fst (getCachedResponse key later) = Returned None /\
   responseCache (snd (getCachedResponse key later)) !! key = None).
Proof.
  cbv zeta. unfold getCachedResponse, sleep, cacheResponse. cbn.
  rewrite lookup_insert_eq. cbn.
  replace (now st + d - now st) with d by lia.
  destruct (Z.ltb_spec d CACHE_TTL) as [Hd|Hd]; split; intros Hd'; try lia.
  - reflexivity.
  - cbn. split; [reflexivity|]. apply lookup_delete_eq.
Qed.

Lemma stored_payload_lives_one_ttl_witness :
  getCachedResponse "key"
    (snd (sleep 3599999
            (snd (cacheResponse "key" (getFallbackResponse failed_context) fresh_state))))
  = (Returned (Some (getFallbackResponse failed_context)),
     snd (sleep 3599999
            (snd (cacheResponse "key" (getFallbackResponse failed_context) fresh_state)))) /\
  fst (getCachedResponse "key"
         (snd (sleep 3600000
                 (snd (cacheResponse "key" (getFallbackResponse failed_context)
                         fresh_state)))))
  = Returned None.
Proof.
  split.
  - apply (proj1 (stored_payload_lives_one_ttl "key"
                    (getFallbackResponse failed_context) 3599999 fresh_state)).
    reflexivity.
  - apply (proj2 (stored_payload_lives_one_ttl "key"
                    (getFallbackResponse failed_context) 3600000 fresh_state)).
    discriminate.
Defined.

(** The key is made of the fingerprint fields and of nothing else. *)
Lemma createCacheKey_fields c1 c2 :
  fingerprint_fields c1 = fingerprint_fields c2 ->
  createCacheKey c1 = createCacheKey c2.
Proof.
  unfold fingerprint_fields, createCacheKey.
  intros [= Hsql Hprompt Herr Hcorrect Hcols Hcount].
  rewrite Hsql, Hprompt, Hcorrect, Hcols, Hcount.
  replace (if truthy_opt (validationError c1)
           then JSON.of_string (default "" (validationError c1)) else "null")
    with (if truthy_opt (validationError c2)
          then JSON.of_string (default "" (validationError c2)) else "null");
    [reflexivity|].
  destruct (truthy_opt (validationError c1)) eqn:E1,
           (truthy_opt (validationError c2)) eqn:E2; try reflexivity.
  - now rewrite Herr.
  - rewrite Herr in E1. discriminate.
  - rewrite <- Herr in E2. discriminate.
Qed.

(** X13.  Two contexts that agree on the SQL up to case and outer white
    space, on the prompt, the error, the correctness flag, the column names
    and the number of rows share one cache entry: once a call for the first
    has been answered by the service, a call for the second within the time
    to live returns the same payload from the cache, without any outbound
    call or insert, whatever else differs (difficulty, expected SQL and
    result, the cells of the rows). *)
Theorem second_call_served_from_cache config service service' c1 c2 st payload st1 st2 :
  fingerprint_fields c1 = fingerprint_fields c2 ->
  cache_miss (createCacheKey c1) st ->
  first_answer service (combinedPrompt c1) (outbound st) (maxRetries config) <> None ->
  generateFeedback config service c1 st = (Returned payload, st1) ->
  responseCache st2 = responseCache st1 ->
  now st2 - now st1 < CACHE_TTL ->
  generateFeedback config service' c2 st2 = (Returned payload, st2).
Proof.
  intros Hfields Hmiss Hanswer E1 Hcache Hfresh.
  destruct (generateFeedback_miss config service c1 st Hmiss)
    as (payload' & st1' & E & Hm).
  rewrite E in E1. injection E1 as -> ->.
  destruct (first_answer service (combinedPrompt c1) (outbound st)
              (maxRetries config)) as [[k d]|]; [|congruence].
  destruct Hm as (_ & _ & _ & Hc).
  apply generateFeedback_hit.
  rewrite <- (createCacheKey_fields c1 c2 Hfields).
  unfold getCachedResponse. rewrite Hcache, Hc, lookup_insert_eq. cbn.
  destruct (Z.ltb_spec (now st2 - now st1) CACHE_TTL); [reflexivity | lia].
Qed.

Lemma second_call_served_from_cache_witness :
  let first := generateFeedback example_config service_helpful failed_context fresh_state in
  let st2 := snd (sleep 60000 (snd first)) in
  exists payload,
    fst first = Returned payload /\
    generateFeedback example_config service_down same_submission st2
    = (Returned payload, st2).
Proof.
  cbv zeta. exists (parseAIResponse " Looks good. " failed_context).
  split; [reflexivity|].
  apply (second_call_served_from_cache example_config service_helpful service_down
           failed_context same_submission fresh_state
           (parseAIResponse " Looks good. " failed_context)
           (snd (generateFeedback example_config service_helpful failed_context
                   fresh_state))).
  - reflexivity.
  - reflexivity.
  - discriminate.
  - reflexivity.
  - reflexivity.
  - reflexivity.
Defined.

(** X14.  An outage is not remembered.  After a miss on which every attempt
    failed the cache holds nothing under the key, so the next call for the
    same context misses again and goes back to the service: if the service
    then answers, that answer is what the call returns. *)
Theorem outage_is_not_remembered config service context st k data_response :
  cache_miss (createCacheKey context) st ->
  all_attempts_fail service (combinedPrompt context) (outbound st) (maxRetries config) ->
  first_answer service (combinedPrompt context)
    (outbound st + maxRetries config) (maxRetries config) = Some (k, data_response) ->
  let st' := snd (generateFeedback config service context st) in
  responseCache st' !! createCacheKey context = None /\
  cache_miss (createCacheKey context) st' /\
  fst (generateFeedback config service context st')
  = Returned (parseAIResponse (aiMessage_of data_response) context).
Proof.
  intros Hmiss Hfail Hnext.
  destruct (generateFeedback_miss config service context st Hmiss)
    as (payload & st' & E & Hm).
  rewrite E. cbn [snd].
  apply first_answer_None in Hfail. rewrite Hfail in Hm.
  destruct Hm as (_ & Ho & _ & Hc).
  assert (Hnone : responseCache st' !! createCacheKey context = None).
  { rewrite Hc. apply lookup_delete_eq. }
  assert (Hmiss' : cache_miss (createCacheKey context) st').
  { unfold cache_miss, getCachedResponse. now rewrite Hnone. }
  split; [exact Hnone|]. split; [exact Hmiss'|].
  destruct (generateFeedback_miss config service context st' Hmiss')
    as (payload2 & st2 & E2 & Hm2).
  rewrite E2. cbn [fst]. rewrite Ho, Hnext in Hm2. now destruct Hm2 as [-> _].
Qed.

Lemma outage_is_not_remembered_witness :
  let st' := snd (generateFeedback example_config service_recovering failed_context
                    fresh_state) in
  responseCache st' !! createCacheKey failed_context = None /\
  cache_miss (createCacheKey failed_context) st' /\
  fst (generateFeedback example_config service_recovering failed_context st')
  = Returned (parseAIResponse (aiMessage_of (Some " Looks good. ")) failed_context).
Proof.
  apply (outage_is_not_remembered example_config service_recovering failed_context
           fresh_state 2%nat (Some " Looks good. ")).
  - reflexivity.
  - intros [|[|i]] Hi; [reflexivity | reflexivity | cbn in Hi; lia].
  - reflexivity.
Defined.

(** The clock along the retry loop: each attempt takes its time, and two
    seconds are waited after a failed attempt when another one follows. *)
Lemma callAI_loop_clock config service context prompt remaining :
  forall attempt lastError st,
    (attempt + remaining = maxRetries config + 1)%nat ->
    now (snd (callAI_loop config service context prompt remaining attempt lastError st))
    = match first_answer service prompt (outbound st) remaining with
      | Some (k, _) =>
          now st + total_took service prompt (outbound st) (S k - outbound st)
          + 2000 * Z.of_nat (k - outbound st)
      | None =>
          now st + total_took service prompt (outbound st) remaining
          + 2000 * Z.of_nat (remaining - 1)
      end.
Proof.
  induction remaining as [|remaining IH]; intros attempt lastError st Hinv.
  - cbn. lia.
  - cbn [callAI_loop first_answer total_took]. cbv [try_catch bind fetch].
    destruct (outcome (service (outbound st) prompt)) as [e|[] status text [e|d]];
      cbn [readResponse negb]; cbv [throw ret].
    3: { cbn [snd now]. replace (S (outbound st) - outbound st)%nat with 1%nat by lia.
         replace (outbound st - outbound st)%nat with 0%nat by lia.
         cbn [total_took]. lia. }
    all: destruct (Nat.ltb_spec attempt (maxRetries config)) as [Hlt|Hge]; cbv [sleep].
    all: match goal with
         | |- context [callAI_loop _ _ _ _ _ ?a ?e ?s] =>
             rewrite (IH a e s) by lia;
             pose proof (first_answer_Some service prompt remaining (outbound s)) as Hk
         end.
    all: cbn [outbound now] in *.
    all: destruct (first_answer service prompt (S (outbound st)) remaining)
           as [[k d0]|].
    all: try (specialize (Hk k d0 eq_refl) as (Hk & _)).
    all: try (replace (S k - outbound st)%nat with (S (S k - S (outbound st)))%nat by lia;
              cbn [total_took]).
    all: try (destruct remaining; [lia|]).
    all: try lia.
    all: cbn [total_took]; lia.
Qed.

(** X15.  The schedule of a miss.  When every attempt fails, the call has
    taken the time of the [maxRetries] attempts plus two seconds between
    consecutive attempts, none after the last; when an attempt is answered,
    it has taken the time of the attempts made plus two seconds after each
    failed one.  The cache is stamped with that final clock. *)
Theorem retry_schedule config service context st :
  cache_miss (createCacheKey context) st ->
  let st' := snd (generateFeedback config service context st) in
  match first_answer service (combinedPrompt context) (outbound st) (maxRetries config) with
  | Some (k, _) =>
      now st' = now st
                + total_took service (combinedPrompt context) (outbound st)
                    (S k - outbound st)
                + 2000 * Z.of_nat (k - outbound st)
  | None =>
      now st' = now st
                + total_took service (combinedPrompt context) (outbound st)
                    (maxRetries config)
                + 2000 * Z.of_nat (maxRetries config - 1)
  end.
Proof.
  intros Hmiss.
  destruct (getCachedResponse_miss _ _ Hmiss) as (st0 & E0 & Hc0 & Hn0 & Ho0 & Hi0).
  pose proof (callAI_loop_clock config service context (combinedPrompt context)
                (maxRetries config) 1%nat (Error "AI request failed") st0
                ltac:(lia)) as Hclock.
  destruct (callAI_loop_spec config service context (combinedPrompt context)
              (maxRetries config) 1%nat (Error "AI request failed") st0)
    as (c & st1 & E1 & _ & _ & Hm).
  rewrite E1 in Hclock. cbn [snd] in Hclock.
  unfold generateFeedback, try_catch, bind. rewrite E0.
  unfold callAI. fold (combinedPrompt context). rewrite E1.
  rewrite Ho0, Hn0 in *.
  destruct (first_answer service (combinedPrompt context) (outbound st)
              (maxRetries config)) as [[k d]|].
  - destruct Hm as [-> _]. cbn. exact Hclock.
  - destruct Hm as [[e ->] _]. cbn. exact Hclock.
Qed.

Lemma retry_schedule_witness :
  now (snd (generateFeedback example_config service_down failed_context fresh_state))
  = now fresh_state + (12 + 12) + 2000.
Proof.
  pose proof (retry_schedule example_config service_down failed_context fresh_state
                ltac:(reflexivity)) as H.
  exact H.
Defined.

(** ** The configuration *)

Example parseInt_examples :
  Config.parseInt "120" = Some 120 /\
  Config.parseInt "  42px" = Some 42 /\
  Config.parseInt "-7" = Some (-7) /\
  Config.parseInt "0x1F" = Some 31 /\
  Config.parseInt "abc" = None /\
  Config.parseInt "" = None /\
  Config.parseInt "0x" = None.
Proof. repeat split; reflexivity. Qed.

(** X16.  Whatever the settings and the platform, the timeout of an attempt
    is positive: the setting AI_TIMEOUT_SECONDS in milliseconds when it
    parses to a positive number, else one of the three platform defaults
    (a missing, empty, non-numeric, zero or negative setting is ignored). *)
Theorem timeout_is_positive env platform arch :
  let t := Config.getOptimalTimeout env platform arch in
  1000 <= t /\
  ((exists text seconds,
       env !! "AI_TIMEOUT_SECONDS" = Some text /\
       Config.parseInt text = Some seconds /\ 0 < seconds /\ t = seconds * 1000) \/
   ((forall text seconds,
        env !! "AI_TIMEOUT_SECONDS" = Some text ->
        Config.parseInt text = Some seconds -> seconds <= 0) /\
    t = if String.eqb platform "darwin" && String.eqb arch "arm64" then 180000
        else if String.eqb platform "darwin" then 120000 else 90000)).
Proof.
  cbv zeta. unfold Config.getOptimalTimeout.
  set (fallback := if String.eqb platform "darwin" && String.eqb arch "arm64"
                   then 180000
                   else if String.eqb platform "darwin" then 120000 else 90000).
  assert (Hf : 1000 <= fallback).
  { subst fallback. destruct (_ && _); [lia|]. destruct (String.eqb _ _); lia. }
  destruct (env !! "AI_TIMEOUT_SECONDS") as [text|] eqn:E; cbn [truthy_opt default].
  2: { split; [exact Hf|]. right. split; [|reflexivity]. discriminate. }
  change (id text) with text.
  destruct (truthy text) eqn:Et.
  - destruct (Config.parseInt text) as [seconds|] eqn:Ep.
    + destruct (Z.ltb_spec 0 seconds) as [Hpos|Hnonpos].
      * split; [lia|]. left. exists text, seconds. auto.
      * split; [exact Hf|]. right. split; [|reflexivity].
        intros text0 seconds0 [= <-] Hp. congruence.
    + split; [exact Hf|]. right. split; [|reflexivity].
      intros text0 seconds0 [= <-] Hp. congruence.
  - destruct text; [|discriminate]. cbn [Z.ltb Z.compare].
    split; [exact Hf|]. right. split; [|reflexivity].
    intros text0 seconds0 [= <-] Hp. discriminate.
Qed.

(** X17.  A retry count that is not positive switches the service off: on
    a miss, [generateFeedback] then makes no outbound call and returns the
    fallback payload.  That is so for a setting AI_MAX_RETRIES that parses
    to zero, to a negative number or not at all. *)
Theorem no_retries_no_calls env platform arch service context st :
  (forall n, Config.parseInt (default "2" (env !! "AI_MAX_RETRIES")) = Some n -> n <= 0) ->
  cache_miss (createCacheKey context) st ->
  exists st',
    generateFeedback (Config.config env platform arch) service context st
    = (Returned (getFallbackResponse context), st') /\
    outbound st' = outbound st /\ inserts st' = inserts st.
Proof.
  intros Hn Hmiss.
  assert (Hzero : maxRetries (Config.config env platform arch) = 0%nat).
  { unfold Config.config. cbn [maxRetries].
    destruct (Config.parseInt _) as [n|]; [|reflexivity].
    specialize (Hn n eq_refl). lia. }
  destruct (generateFeedback_miss (Config.config env platform arch) service context
              st Hmiss) as (payload & st' & E & Hm).
  rewrite Hzero in Hm. cbn [first_answer] in Hm. destruct Hm as (-> & Ho & Hi & _).
  exists st'. split; [exact E|]. split; [lia | exact Hi].
Qed.

Lemma no_retries_no_calls_witness :
  exists st',
    generateFeedback (Config.config {[ "AI_MAX_RETRIES" := "none" ]} "linux" "x64")
      service_helpful failed_context fresh_state
    = (Returned (getFallbackResponse failed_context), st') /\
    outbound st' = outbound fresh_state /\ inserts st' = inserts fresh_state.
Proof.
  apply (no_retries_no_calls {[ "AI_MAX_RETRIES" := "none" ]} "linux" "x64"
           service_helpful failed_context fresh_state).
  - intros n H. vm_compute in H. discriminate.
  - reflexivity.
Defined.

(** ** The tutor's message filter *)

Lemma strip_prefix_ci_append word : forall occurrence rest,
  eq_ignore_case occurrence word ->
  Tutor.strip_prefix_ci word (occurrence ++ rest) = Some rest.
Proof.
  unfold eq_ignore_case, toUpperCase.
  induction word as [|c word IH]; intros [|d occ] rest H; cbn [map_chars] in H;
    try discriminate; [reflexivity|].
  injection H as Hd Hocc. rewrite append_cons. cbn [Tutor.strip_prefix_ci].
  rewrite Hd, Ascii.eqb_refl. now apply IH.
Qed.

Lemma strip_prefix_ci_inv word : forall s rest,
  Tutor.strip_prefix_ci word s = Some rest ->
  exists occurrence, s = occurrence ++ rest /\ eq_ignore_case occurrence word.
Proof.
  unfold eq_ignore_case, toUpperCase.
  induction word as [|c word IH]; intros s rest H; cbn [Tutor.strip_prefix_ci] in H.
  - injection H as ->. now exists "".
  - destruct s as [|d s]; [discriminate|].
    destruct (Ascii.eqb_spec (upper_char c) (upper_char d)) as [E|]; [|discriminate].
    destruct (IH _ _ H) as (occ & -> & Hocc).
    exists (String d occ). split; [reflexivity|].
    cbn [map_chars]. now rewrite Hocc, E.
Qed.

(** The matcher against the instances of the pattern. *)
Lemma match_here_spec p : forall s,
  Tutor.match_here p s = true <->
  exists phrase rest, s = phrase ++ rest /\ instance_of p phrase.
Proof.
  induction p as [|[word|] p IH]; intros s.
  - cbn. split; [|reflexivity]. intros _. exists "", s. split; [reflexivity|constructor].
  - cbn [Tutor.match_here]. split.
    + destruct (Tutor.strip_prefix_ci word s) as [rest|] eqn:E; [|discriminate].
      intros H. apply IH in H as (phrase & rest' & -> & Hinst).
      apply strip_prefix_ci_inv in E as (occ & -> & Hocc).
      exists (occ ++ phrase), rest'. rewrite append_assoc.
      split; [reflexivity|]. now constructor.
    + intros (phrase & rest & -> & Hinst). inversion Hinst as [|w p' occ t Hocc Ht|]; subst.
      rewrite append_assoc, (strip_prefix_ci_append word occ (t ++ rest) Hocc).
      apply IH. exists t, rest. split; [reflexivity | exact Ht].
  - cbn [Tutor.match_here].
    induction s as [|c s IHs].
    + split; [discriminate|].
      intros (phrase & rest & H & Hinst).
      inversion Hinst as [| |p' gap t Hne Hwhite Ht]; subst.
      destruct gap; [congruence | discriminate].
    + split.
      * intros H. apply andb_true_iff in H as [Hc H].
        apply orb_true_iff in H as [H|H].
        -- apply IHs in H as (phrase & rest & -> & Hinst).
           inversion Hinst as [| |p' gap t Hne Hwhite Ht]; subst.
           exists (String c gap ++ t), rest. split; [now rewrite !append_cons|].
           constructor; [discriminate | cbn; now rewrite Hc | exact Ht].
        -- apply IH in H as (phrase & rest & -> & Hinst).
           exists (String c "" ++ phrase), rest. split; [reflexivity|].
           constructor; [discriminate | cbn; now rewrite Hc | exact Hinst].
      * intros (phrase & rest & H & Hinst).
        inversion Hinst as [| |p' gap t Hne Hwhite Ht]; subst.
        destruct gap as [|d gap]; [congruence|].
        rewrite !append_cons in H. injection H as -> ->.
        cbn [all_chars] in Hwhite. apply andb_true_iff in Hwhite as [Hd Hgap].
        rewrite Hd. cbn [andb]. apply orb_true_iff.
        destruct gap as [|e gap].
        -- right. apply IH. exists t, rest. split; [reflexivity | exact Ht].
        -- left. apply IHs. exists (String e gap ++ t), rest.
           split; [now rewrite append_assoc|].
           constructor; [discriminate | exact Hgap | exact Ht].
Qed.

Lemma test_spec p s : Tutor.test p s = true <-> phrase_occurs p s.
Proof.
  unfold phrase_occurs. induction s as [|c s IH]; cbn [Tutor.test].
  - rewrite orb_false_r, match_here_spec. split.
    + intros (phrase & rest & H & Hinst). exists "", phrase, rest. auto.
    + intros (before & phrase & after & H & Hinst).
      destruct before; [|discriminate]. exists phrase, after. auto.
  - rewrite orb_true_iff, match_here_spec, IH. split.
    + intros [(phrase & rest & H & Hinst) | (before & phrase & after & -> & Hinst)].
      * exists "", phrase, rest. auto.
      * exists (String c before), phrase, after. auto.
    + intros (before & phrase & after & H & Hinst).
      destruct before as [|d before].
      * left. exists phrase, after. auto.
      * rewrite append_cons in H. injection H as -> ->. right.
        exists before, phrase, after. auto.
Qed.

Lemma existsb_harmful message :
  List.existsb (fun pattern => Tutor.test pattern message) Tutor.HARMFUL_PATTERNS = true <->
  exists pattern, In pattern Tutor.HARMFUL_PATTERNS /\ phrase_occurs pattern message.
Proof.
  rewrite List.existsb_exists. split; intros (p & Hin & H); exists p;
    (split; [exact Hin|]); now apply test_spec.
Qed.

(** X18.  The filter refuses a message as harmful exactly when it holds, at
    some position and in any mix of cases, an instance of one of the seven
    patterns: the words of the pattern, parted by one or more white code
    units where the pattern has [\s+]. *)
Theorem harmful_message_refused message :
  Tutor.validateMessage message = Some (BadRequestException Tutor.harmful_message) <->
  exists pattern, In pattern Tutor.HARMFUL_PATTERNS /\ phrase_occurs pattern message.
Proof.
  rewrite <- existsb_harmful. unfold Tutor.validateMessage.
  destruct (List.existsb _ Tutor.HARMFUL_PATTERNS); [tauto|].
  destruct (List.existsb _ Tutor.suspiciousTerms); split; discriminate.
Qed.

Lemma harmful_message_refused_witness :
  Tutor.validateMessage ("How do I Drop" ++ AI.nl ++ "  TABLE users?")
  = Some (BadRequestException Tutor.harmful_message).
Proof.
  apply (proj2 (harmful_message_refused ("How do I Drop" ++ AI.nl ++ "  TABLE users?"))).
  exists [Tutor.Lit "drop"; Tutor.Spaces; Tutor.Lit "table"]. split; [cbn; auto|].
  exists "How do I ", ("Drop" ++ (AI.nl ++ "  ") ++ "TABLE" ++ ""), " users?".
  split; [reflexivity|].
  repeat constructor; discriminate.
Defined.

Lemma lower_upper_char c : lower_char (upper_char c) = lower_char c.
Proof. destruct c as [[] [] [] [] [] [] [] []]; reflexivity. Qed.

Lemma upper_lower_char c : upper_char (lower_char c) = upper_char c.
Proof. destruct c as [[] [] [] [] [] [] [] []]; reflexivity. Qed.

Lemma toLowerCase_toUpperCase s : toLowerCase (toUpperCase s) = toLowerCase s.
Proof.
  induction s as [|c s IH]; [reflexivity|].
  cbn [toLowerCase toUpperCase map_chars] in *. now rewrite lower_upper_char, IH.
Qed.

Lemma toUpperCase_toLowerCase s : toUpperCase (toLowerCase s) = toUpperCase s.
Proof.
  induction s as [|c s IH]; [reflexivity|].
  cbn [toLowerCase toUpperCase map_chars] in *. now rewrite upper_lower_char, IH.
Qed.

Lemma eq_ignore_case_lower a b : eq_ignore_case a b <-> toLowerCase a = toLowerCase b.
Proof.
  unfold eq_ignore_case. split; intros H.
  - now rewrite <- (toLowerCase_toUpperCase a), H, toLowerCase_toUpperCase.
  - now rewrite <- (toUpperCase_toLowerCase a), H, toUpperCase_toLowerCase.
Qed.

Lemma includes_lower message term :
  toLowerCase term = term ->
  includes (toLowerCase message) term = true <-> contains_ignore_case message term.
Proof.
  intros Hterm. split.
  - intros H. apply includes_inv in H as (pre & post & H).
    apply map_chars_append_inv in H as (pre' & rest & -> & _ & H).
    apply map_chars_append_inv in H as (occ & post' & -> & Hocc & _).
    exists pre', occ, post'. split; [reflexivity|].
    apply eq_ignore_case_lower. unfold toLowerCase at 1. now rewrite Hocc.
  - intros (before & occ & after & -> & Hocc).
    apply eq_ignore_case_lower in Hocc. rewrite Hterm in Hocc.
    unfold toLowerCase in *. rewrite !map_chars_append, Hocc.
    apply includes_append.
Qed.

Lemma existsb_suspicious message :
  List.existsb (fun term => includes (toLowerCase message) term) Tutor.suspiciousTerms = true <->
  exists term, In term Tutor.suspiciousTerms /\ contains_ignore_case message term.
Proof.
  assert (Hlow : forall term, In term Tutor.suspiciousTerms -> toLowerCase term = term).
  { intros term H. cbn in H. repeat (destruct H as [<- | H]; [reflexivity|]). destruct H. }
  rewrite List.existsb_exists. split; intros (t & Hin & H); exists t;
    (split; [exact Hin|]); now apply (includes_lower message t (Hlow t Hin)).
Qed.

(** X19.  The filter lets a message through exactly when no instance of a
    harmful pattern occurs in it and none of the words hack, exploit,
    inject and bypass occurs in it, in any mix of cases, even inside a
    longer word. *)
Theorem message_accepted message :
  Tutor.validateMessage message = None <->
  (forall pattern, In pattern Tutor.HARMFUL_PATTERNS -> ~ phrase_occurs pattern message) /\
  (forall term, In term Tutor.suspiciousTerms -> ~ contains_ignore_case message term).
Proof.
  unfold Tutor.validateMessage.
  destruct (List.existsb _ Tutor.HARMFUL_PATTERNS) eqn:Eh.
  - apply existsb_harmful in Eh as (p & Hin & Hocc).
    split; [discriminate|]. intros [H _]. exfalso. now apply (H p).
  - destruct (List.existsb _ Tutor.suspiciousTerms) eqn:Es.
    + apply existsb_suspicious in Es as (t & Hin & Hocc).
      split; [discriminate|]. intros [_ H]. exfalso. now apply (H t).
    + split; [|reflexivity]. intros _. split.
      * intros p Hin Hocc.
        assert (H : List.existsb (fun pattern => Tutor.test pattern message)
                      Tutor.HARMFUL_PATTERNS = true)
          by (apply existsb_harmful; eauto).
        congruence.
      * intros t Hin Hocc.
        assert (H : List.existsb (fun term => includes (toLowerCase message) term)
                      Tutor.suspiciousTerms = true)
          by (apply existsb_suspicious; eauto).
        congruence.
Qed.

(** A question about SQL injection is turned away. *)
Example injection_question_refused :
  Tutor.validateMessage "What is SQL Injection?"
  = Some (BadRequestException Tutor.focus_message).
Proof. reflexivity. Qed.

(** The rejection of a text in which a forbidden keyword occurs. *)
Lemma forbidden_occurrence_rejected sql keyword :
  In keyword FORBIDDEN_KEYWORDS ->
  contains_ignore_case sql keyword ->
  exists matched,
    In matched FORBIDDEN_KEYWORDS /\
    preValidateSQL sql = reject (forbidden_message matched).
Proof.
  intros Hin Hocc.
  pose proof (occurrence_in_trimmed _ _ Hin Hocc) as Hinc.
  unfold preValidateSQL.
  destruct (toUpperCase (trim sql)) as [|c t] eqn:Et.
  { destruct keyword; [|discriminate].
    now destruct (forbidden_keyword_shape _ Hin) as (_ & ? & _). }
  cbn [truthy negb].
  destruct (List.find _ FORBIDDEN_KEYWORDS) as [matched|] eqn:Ef.
  - apply List.find_some in Ef as [Hm _]. exists matched. auto.
  - apply List.find_none with (x := keyword) in Ef; [congruence | exact Hin].
Qed.

(** X20.  What the tutor's filter calls harmful, the SQL classifier refuses
    too: a message refused as harmful holds a keyword of the classifier's
    forbidden vocabulary, so as a query it would be rejected with an
    "Operation not allowed" reason. *)
Theorem harmful_message_is_forbidden_sql message :
  Tutor.validateMessage message = Some (BadRequestException Tutor.harmful_message) ->
  exists keyword,
    In keyword FORBIDDEN_KEYWORDS /\
    contains_ignore_case message keyword /\
    exists matched,
      In matched FORBIDDEN_KEYWORDS /\
      preValidateSQL message = reject (forbidden_message matched).
Proof.
  intros H.
  assert (Hex : exists pattern, In pattern Tutor.HARMFUL_PATTERNS /\
                                phrase_occurs pattern message).
  { apply existsb_harmful. revert H. unfold Tutor.validateMessage.
    destruct (List.existsb _ Tutor.HARMFUL_PATTERNS); [reflexivity|].
    destruct (List.existsb _ Tutor.suspiciousTerms); discriminate. }
  destruct Hex as (p & Hin & before & phrase & after & -> & Hinst).
  assert (Hword : exists word tail, p = Tutor.Lit word :: tail /\
                                    In (toUpperCase word) FORBIDDEN_KEYWORDS).
  { cbn in Hin.
    repeat (destruct Hin as [<- | Hin];
            [eexists _, _; split; [reflexivity|]; cbn; tauto|]).
    destruct Hin. }
  destruct Hword as (word & tail & -> & Hkw).
  inversion Hinst as [|w p' occ rest Hocc Hrest|]; subst.
  assert (Hc : contains_ignore_case (before ++ (occ ++ rest) ++ after)
                 (toUpperCase word)).
  { exists before, occ, (rest ++ after). split; [now rewrite append_assoc|].
    unfold eq_ignore_case in *. now rewrite toUpperCase_idempotent. }
  exists (toUpperCase word). split; [exact Hkw|]. split; [exact Hc|].
  now apply (forbidden_occurrence_rejected _ (toUpperCase word)).
Qed.

Lemma harmful_message_is_forbidden_sql_witness :
  exists keyword,
    In keyword FORBIDDEN_KEYWORDS /\
    contains_ignore_case "please Truncate it" keyword /\
    exists matched,
      In matched FORBIDDEN_KEYWORDS /\
      preValidateSQL "please Truncate it" = reject (forbidden_message matched).
Proof.
  apply (harmful_message_is_forbidden_sql "please Truncate it"). reflexivity.
Defined.

(** ** The practice service *)

Lemma generateFeedback_total config service context st :
  exists payload st',
    generateFeedback config service context st = (Returned payload, st') /\
    (outbound st' <= outbound st + maxRetries config)%nat.
Proof.
  destruct (getCachedResponse_returns (createCacheKey context) st)
    as [[payload Hhit] | Hmiss].
  - exists payload, st. rewrite (generateFeedback_hit _ _ _ _ _ Hhit). split; [reflexivity|lia].
  - destruct (generateFeedback_miss config service context st Hmiss)
      as (payload & st' & E & Hm).
    exists payload, st'. split; [exact E|].
    destruct (first_answer service (combinedPrompt context) (outbound st)
                (maxRetries config)) as [[k d]|] eqn:Ef.
    + destruct Hm as (_ & Ho & _). apply first_answer_Some in Ef as (Hk & _). lia.
    + destruct Hm as (_ & Ho & _). lia.
Qed.

(** X21.  The three input errors of [evaluateSubmission], in the order they
    are checked: a user id of zero, an unknown exercise, a blank query.
    Each is reported before anything is run, asked or stored: the state is
    left as it was. *)
Theorem evaluate_input_errors exercises engine ts elapsed config service userId dto st :
  let out := Practice.evaluateSubmission exercises engine ts elapsed config service
               userId dto st in
  (userId = 0 ->
   out = (inr (BadRequestException "Valid user ID is required"), st)) /\
  (userId <> 0 ->
   (forall e, In e exercises ->
              Practice.exercise_id e <> Practice.dto_exerciseId dto) ->
   out = (inr (NotFoundException
                 ("Exercise with id " ++ JSON.dquote ++ Practice.dto_exerciseId dto
                  ++ JSON.dquote ++ " not found")), st)) /\
  (userId <> 0 ->
   (exists e, In e exercises /\ Practice.exercise_id e = Practice.dto_exerciseId dto) ->
   all_chars is_white (Practice.dto_sql dto) = true ->
   out = (inr (BadRequestException "SQL query cannot be empty"), st)).
Proof.
  cbv zeta. unfold Practice.evaluateSubmission.
  split; [intros ->; reflexivity|].
  split; intros Hu; apply Z.eqb_neq in Hu; rewrite Hu.
  - intros Hnone.
    destruct (List.find _ exercises) as [e|] eqn:Ef; [|reflexivity].
    apply List.find_some in Ef as [Hin He]. apply String.eqb_eq in He.
    now destruct (Hnone e Hin).
  - intros (e & Hin & He) Hblank.
    destruct (List.find _ exercises) as [e'|] eqn:Ef.
    + apply trim_empty_iff in Hblank. now rewrite Hblank.
    + apply List.find_none with (x := e) in Ef; [|exact Hin].
      rewrite He, String.eqb_refl in Ef. discriminate.
Qed.

Lemma evaluate_input_errors_witness :
  Practice.evaluateSubmission example_exercises table_scan_engine
    "2025-08-28 16:31:14" 3 example_config service_helpful 7
    {| Practice.dto_exerciseId := "ex-1"; Practice.dto_sql := "   ";
       Practice.dto_mode := Practice.EVALUATE |} fresh_practice
  = (inr (BadRequestException "SQL query cannot be empty"), fresh_practice).
Proof.
  apply (proj2 (proj2 (evaluate_input_errors example_exercises table_scan_engine
                         "2025-08-28 16:31:14" 3 example_config service_helpful 7
                         {| Practice.dto_exerciseId := "ex-1"; Practice.dto_sql := "   ";
                            Practice.dto_mode := Practice.EVALUATE |} fresh_practice))).
  - discriminate.
  - eexists. split; [right; left; reflexivity | reflexivity].
  - reflexivity.
Defined.

(** X22.  Past the input checks, with tables that answer and a sandbox
    engine that calls back before the timeout of 5000 ms, an evaluation
    succeeds, whatever the engine answers and whatever the reasoning
    service does.  It stores exactly one attempt, which records the trimmed
    query and what is returned; the submission counts as correct exactly
    when the validator gave a result; the feedback is that of the payload
    of [generateFeedback], never the validator's own text; an incorrect
    attempt scores 0 and gets a hint, a correct one scores 5, 10, 15 or 20;
    and at most [maxRetries] outbound calls are made. *)
Theorem evaluation_succeeds exercises engine ts elapsed config service
    userId dto st exercise :
  userId <> 0 ->
  List.find (fun e => String.eqb (Practice.exercise_id e) (Practice.dto_exerciseId dto))
    exercises = Some exercise ->
  all_chars is_white (Practice.dto_sql dto) = false ->
  List.existsb (String.eqb (Practice.exercise_difficulty exercise))
    Practice.inherited_names = false ->
  elapsed < 5000 ->
  let validation := run engine ts elapsed (trim (Practice.dto_sql dto))
                      {| opt_timeout := Some 5000; opt_maxRows := Some 100 |} in
  exists res st' attempt payload,
    Practice.evaluateSubmission exercises engine ts elapsed config service userId dto st
    = (inl res, st') /\
    Practice.attempts st' = (Practice.attempts st ++ [attempt])%list /\
    Practice.attempt_userId attempt = userId /\
    Practice.attempt_exerciseId attempt = Practice.dto_exerciseId dto /\
    Practice.attempt_sql attempt = trim (Practice.dto_sql dto) /\
    Practice.attempt_isCorrect attempt = Practice.eval_isCorrect res /\
    Practice.attempt_feedback attempt = Practice.eval_feedback res /\
    Practice.attempt_result attempt = Practice.resultPreview res /\
    Practice.resultPreview res = result validation /\
    (Practice.eval_isCorrect res = true <-> exists r, validation = success r) /\
    generateFeedback config service
      (Practice.aiContext exercise (Practice.dto_sql dto) validation
         (Practice.eval_isCorrect res))
      (Practice.ai_state st)
    = (Returned payload, Practice.ai_state st') /\
    Practice.eval_feedback res = feedback payload /\
    (Practice.eval_isCorrect res = false ->
     Practice.attempt_score attempt = 0 /\
     Practice.suggestion_type (Practice.nextSuggestion res) = "hint" /\
     Practice.suggestedExerciseId (Practice.nextSuggestion res) = None) /\
    (Practice.eval_isCorrect res = true ->
     In (Practice.attempt_score attempt) [5; 10; 15; 20] /\
     Practice.suggestion_type (Practice.nextSuggestion res) = "difficulty_up" /\
     Practice.suggestedExerciseId (Practice.nextSuggestion res)
     = Practice.findNextExercise (Some exercises) exercise) /\
    (outbound (Practice.ai_state st')
     <= outbound (Practice.ai_state st) + maxRetries config)%nat.
Proof.
  intros Hu Hfind Hblank Hdiff _ validation.
  unfold Practice.evaluateSubmission.
  apply Z.eqb_neq in Hu. rewrite Hu, Hfind.
  assert (Htrim : truthy (trim (Practice.dto_sql dto)) = true).
  { destruct (trim (Practice.dto_sql dto)) eqn:E; [|reflexivity].
    apply trim_empty_iff in E. congruence. }
  rewrite Htrim. cbn [negb]. fold validation.
  set (isCorrect := match error validation with None => true | Some _ => false end).
  destruct (generateFeedback_total config service
              (Practice.aiContext exercise (Practice.dto_sql dto) validation isCorrect)
              (Practice.ai_state st))
    as (payload & ai' & E & Hout).
  rewrite E.
  assert (Hvalid : (exists reason, reason <> "" /\ validation = reject reason) \/
                   (exists r, validation = success r))
    by apply run_cases.
  assert (Hcorrect : isCorrect = true <-> exists r, validation = success r).
  { subst isCorrect. destruct Hvalid as [(reason & _ & ->) | (r & ->)]; cbn.
    - split; [discriminate|]. intros [r Hr]. discriminate.
    - split; eauto. }
  assert (Hscore : exists score,
             Practice.calculateScore isCorrect (Practice.exercise_difficulty exercise)
             = Some score /\
             (isCorrect = false -> score = 0) /\
             (isCorrect = true -> In score [5; 10; 15; 20])).
  { unfold Practice.calculateScore. rewrite Hdiff.
    destruct isCorrect; cbn [negb].
    - repeat (destruct (String.eqb _ _);
              [eexists; split; [reflexivity|]; split; [discriminate|];
               intros _; cbn; tauto|]).
      eexists; split; [reflexivity|]; split; [discriminate|]. intros _. cbn. tauto.
    - eexists. split; [reflexivity|]. split; [reflexivity | discriminate]. }
  destruct Hscore as (score & -> & Hzero & Hpos).
  eexists _, _, _, payload. split; [reflexivity|]. cbn.
  repeat (split; [reflexivity|]).
  split; [exact Hcorrect|].
  split; [exact E|].
  split; [reflexivity|].
  split; [intros H; rewrite H; split; [now apply Hzero | split; reflexivity]|].
  split; [intros H; rewrite H; split; [now apply Hpos | split; reflexivity]|].
  exact Hout.
Qed.

Lemma evaluation_succeeds_witness :
  exists res st' attempt,
    Practice.evaluateSubmission example_exercises table_scan_engine
      "2025-08-28 16:31:14" 3 example_config service_down 7
      {| Practice.dto_exerciseId := "ex-1"; Practice.dto_sql := " SELECT * FROM users ";
         Practice.dto_mode := Practice.EVALUATE |} fresh_practice
    = (inl res, st') /\
    Practice.attempts st' = [attempt] /\
    Practice.attempt_sql attempt = "SELECT * FROM users" /\
    Practice.eval_isCorrect res = true /\
    Practice.attempt_score attempt = 5 /\
    Practice.suggestedExerciseId (Practice.nextSuggestion res) = Some "ex-2".
Proof.
  destruct (evaluation_succeeds example_exercises table_scan_engine
              "2025-08-28 16:31:14" 3 example_config service_down 7
              {| Practice.dto_exerciseId := "ex-1";
                 Practice.dto_sql := " SELECT * FROM users ";
                 Practice.dto_mode := Practice.EVALUATE |} fresh_practice
              (nth 1 example_exercises (nth 0 example_exercises (nth 0 example_exercises
                 {| Practice.exercise_id := ""; Practice.exercise_lessonId := "";
                    Practice.exercise_prompt := ""; Practice.exercise_expectedSql := None;
                    Practice.exercise_expectedResult := None;
                    Practice.exercise_difficulty := "";
                    Practice.exercise_orderIndex := 0 |})))
              ltac:(discriminate) ltac:(reflexivity) ltac:(reflexivity)
              ltac:(reflexivity) ltac:(reflexivity))
    as (res & st' & attempt & payload & E & Hatt & _ & _ & Hsql & _).
  exists res, st', attempt. split; [exact E|].
  vm_compute in E. injection E as <- <-.
  vm_compute in Hatt. injection Hatt as <-.
  repeat split.
Defined.

(** *** A forbidden statement, seen from the practice service *)

Lemma trimEnd_idempotent s : trimEnd (trimEnd s) = trimEnd s.
Proof.
  induction s as [|c s IH]; [reflexivity|]. cbn [trimEnd].
  destruct (trimEnd s) as [|d t] eqn:E.
  - destruct (is_white c) eqn:Ec; [reflexivity|]. cbn [trimEnd]. now rewrite Ec.
  - rewrite trimEnd_cons; rewrite IH; [reflexivity | discriminate].
Qed.

(** Trimming twice is trimming once. *)
Lemma trim_idempotent s : trim (trim s) = trim s.
Proof.
  unfold trim at 1. 
  assert (Hstart : trimStart (trim s) = trim s).
  { destruct (trim s) as [|c t] eqn:E; [reflexivity|].
    apply trim_head in E. cbn [trimStart]. now rewrite E. }
  rewrite Hstart. unfold trim. apply trimEnd_idempotent.
Qed.

Lemma contains_in_trim sql keyword :
  In keyword FORBIDDEN_KEYWORDS ->
  contains_ignore_case sql keyword ->
  contains_ignore_case (trim sql) keyword.
Proof.
  intros Hin Hocc.
  apply included_occurs; [now apply forbidden_keyword_shape|].
  rewrite trim_idempotent. now apply occurrence_in_trimmed.
Qed.

Lemma run_rejected engine ts elapsed sql options reason :
  reason <> "" ->
  preValidateSQL sql = reject reason ->
  run engine ts elapsed sql options = reject reason.
Proof.
  intros Hne H. unfold run. rewrite H. cbn.
  destruct reason; [congruence | reflexivity].
Qed.

Lemma empty_cache_misses key st : responseCache st = ∅ -> cache_miss key st.
Proof.
  intros H. unfold cache_miss, getCachedResponse. rewrite H, lookup_empty. reflexivity.
Qed.

(** X24.  A submission that holds a forbidden keyword is stored as an
    incorrect attempt with score 0 and no result, and answered with a hint;
    the sandbox engine is never consulted (the outcome is the same whatever
    the engine, the clock and the time it takes); and when the cache is
    empty and the reasoning service is down, the feedback is the fallback
    text that quotes the classifier's reason. *)
Theorem forbidden_submission_is_incorrect exercises engine ts elapsed config service
    userId dto st exercise keyword :
  userId <> 0 ->
  List.find (fun e => String.eqb (Practice.exercise_id e) (Practice.dto_exerciseId dto))
    exercises = Some exercise ->
  In keyword FORBIDDEN_KEYWORDS ->
  contains_ignore_case (Practice.dto_sql dto) keyword ->
  exists res st' attempt matched,
    Practice.evaluateSubmission exercises engine ts elapsed config service userId dto st
    = (inl res, st') /\
    In matched FORBIDDEN_KEYWORDS /\
    Practice.eval_isCorrect res = false /\
    Practice.resultPreview res = None /\
    Practice.suggestion_type (Practice.nextSuggestion res) = "hint" /\
    Practice.suggestedExerciseId (Practice.nextSuggestion res) = None /\
    Practice.attempts st' = (Practice.attempts st ++ [attempt])%list /\
    Practice.attempt_isCorrect attempt = false /\
    Practice.attempt_score attempt = 0 /\
    Practice.attempt_result attempt = None /\
    (forall engine' ts' elapsed',
        Practice.evaluateSubmission exercises engine' ts' elapsed' config service
          userId dto st = (inl res, st')) /\
    (responseCache (Practice.ai_state st) = ∅ ->
     (forall n prompt, attempt_fails (outcome (service n prompt)) = true) ->
     Practice.eval_feedback res = error_feedback (forbidden_message matched)).
Proof.
  intros Hu Hfind Hin Hocc.
  destruct (forbidden_occurrence_rejected _ _ Hin
              (contains_in_trim _ _ Hin Hocc)) as (matched & Hm & Hrej).
  assert (Hne : forbidden_message matched <> "") by discriminate.
  assert (Hrun : forall engine' ts' elapsed',
             run engine' ts' elapsed' (trim (Practice.dto_sql dto))
               {| opt_timeout := Some 5000; opt_maxRows := Some 100 |}
             = reject (forbidden_message matched)).
  { intros. now apply run_rejected. }
  assert (Htrim : truthy (trim (Practice.dto_sql dto)) = true).
  { destruct (trim (Practice.dto_sql dto)) eqn:E; [|reflexivity].
    vm_compute in Hrej. discriminate. }
  apply Z.eqb_neq in Hu.
  assert (Heq : forall engine' ts' elapsed',
             Practice.evaluateSubmission exercises engine' ts' elapsed' config service
               userId dto st
             = Practice.evaluateSubmission exercises engine ts elapsed config service
                 userId dto st).
  { intros. unfold Practice.evaluateSubmission. rewrite Hu, Hfind, Htrim. cbn [negb].
    now rewrite !Hrun. }
  destruct (generateFeedback_total config service
              (Practice.aiContext exercise (Practice.dto_sql dto)
                 (reject (forbidden_message matched)) false)
              (Practice.ai_state st))
    as (payload & ai' & E & _).
  assert (Hmain : Practice.evaluateSubmission exercises engine ts elapsed config service
                    userId dto st
                  = (inl {| Practice.eval_isCorrect := false;
                            Practice.eval_feedback := feedback payload;
                            Practice.resultPreview := None;
                            Practice.nextSuggestion :=
                              {| Practice.suggestion_type := "hint";
                                 Practice.suggestedExerciseId := None;
                                 Practice.suggestion_list :=
                                   default [] (suggestions payload) |} |},
                     {| Practice.ai_state := ai';
                        Practice.attempts :=
                          (Practice.attempts st ++
                           [{| Practice.attempt_userId := userId;
                               Practice.attempt_exerciseId := Practice.dto_exerciseId dto;
                               Practice.attempt_sql := trim (Practice.dto_sql dto);
                               Practice.attempt_isCorrect := false;
                               Practice.attempt_feedback := feedback payload;
                               Practice.attempt_result := None;
                               Practice.attempt_score := 0 |}])%list |})).
  { unfold Practice.evaluateSubmission. rewrite Hu, Hfind, Htrim. cbn [negb].
    rewrite !Hrun. cbn [error result reject]. rewrite E. reflexivity. }
  eexists _, _, _, matched. split; [exact Hmain|]. split; [exact Hm|].
  cbn. repeat (split; [reflexivity|]). split.
  - intros engine' ts' elapsed'. rewrite Heq. exact Hmain.
  - intros Hempty Hdown.
    pose proof (generateFeedback_all_fail config service
                  (Practice.aiContext exercise (Practice.dto_sql dto)
                     (reject (forbidden_message matched)) false)
                  (Practice.ai_state st)
                  (empty_cache_misses _ _ Hempty)
                  (fun i _ => Hdown _ _)) as Hfb.
    rewrite E in Hfb. cbn [fst] in Hfb. injection Hfb as ->. reflexivity.
Qed.

Lemma forbidden_submission_is_incorrect_witness :
  exists res st',
    Practice.evaluateSubmission example_exercises table_scan_engine
      "2025-08-28 16:31:14" 3 example_config service_down 7
      {| Practice.dto_exerciseId := "ex-1"; Practice.dto_sql := "drop table users";
         Practice.dto_mode := Practice.EVALUATE |} fresh_practice
    = (inl res, st') /\
    Practice.eval_isCorrect res = false /\
    Practice.eval_feedback res = error_feedback (forbidden_message "DROP").
Proof.
  destruct (forbidden_submission_is_incorrect example_exercises table_scan_engine
              "2025-08-28 16:31:14" 3 example_config service_down 7
              {| Practice.dto_exerciseId := "ex-1"; Practice.dto_sql := "drop table users";
                 Practice.dto_mode := Practice.EVALUATE |} fresh_practice
              (nth 1 example_exercises (nth 0 example_exercises (nth 0 example_exercises
                 {| Practice.exercise_id := ""; Practice.exercise_lessonId := "";
                    Practice.exercise_prompt := ""; Practice.exercise_expectedSql := None;
                    Practice.exercise_expectedResult := None;
                    Practice.exercise_difficulty := "";
                    Practice.exercise_orderIndex := 0 |})))
              "DROP"
              ltac:(discriminate) ltac:(reflexivity) ltac:(cbn; auto)
              ltac:(exists "", "drop", " table users"; split; reflexivity))
    as (res & st' & attempt & matched & E & _ & Hc & _).
  exists res, st'. split; [exact E|]. split; [exact Hc|].
  vm_compute in E. injection E as <- _. reflexivity.
Defined.

(** *** The verdict does not depend on outer white space *)

(** Whether a segment counts as a statement. *)
Lemma truthy_trim_cons c s :
  truthy (trim (String c s)) = negb (is_white c) || truthy (trim s).
Proof.
  unfold trim. cbn [trimStart]. destruct (is_white c) eqn:Ec; [reflexivity|].
  cbn [trimEnd negb orb]. destruct (trimEnd s); [now rewrite Ec | reflexivity].
Qed.

Lemma white_is_no_separator c : is_white c = true -> Ascii.eqb c ";" = false.
Proof. destruct c as [[] [] [] [] [] [] [] []]; cbv; congruence. Qed.

Lemma split_nonempty sep s : split sep s <> [].
Proof.
  destruct s as [|c s]; cbn [split]; [discriminate|].
  destruct (Ascii.eqb c sep); [discriminate|]. destruct (split sep s); discriminate.
Qed.

Lemma split_cons_other c s :
  Ascii.eqb c ";" = false ->
  exists h t, split ";" s = h :: t /\ split ";" (String c s) = String c h :: t.
Proof.
  intros Hc. cbn [split]. rewrite Hc.
  destruct (split ";" s) as [|h t] eqn:E; [now apply split_nonempty in E|]. eauto.
Qed.

Lemma split_cons_sep s : split ";" (String ";" s) = "" :: split ";" s.
Proof. reflexivity. Qed.

Lemma blank_flags_white c s :
  is_white c = true ->
  map (fun x => truthy (trim x)) (split ";" (String c s))
  = map (fun x => truthy (trim x)) (split ";" s).
Proof.
  intros Hc.
  destruct (split_cons_other c s (white_is_no_separator c Hc)) as (h & t & -> & ->).
  cbn [map]. now rewrite truthy_trim_cons, Hc.
Qed.

Lemma blank_flags_trimStart s :
  map (fun x => truthy (trim x)) (split ";" (trimStart s))
  = map (fun x => truthy (trim x)) (split ";" s).
Proof.
  induction s as [|c s IH]; [reflexivity|]. cbn [trimStart].
  destruct (is_white c) eqn:Ec; [|reflexivity].
  now rewrite IH, blank_flags_white.
Qed.

Lemma blank_flags_all_white s :
  all_chars is_white s = true ->
  map (fun x => truthy (trim x)) (split ";" s) = [false].
Proof.
  induction s as [|c s IH]; [reflexivity|]. cbn [all_chars].
  intros H. apply andb_true_iff in H as [Hc Hs].
  now rewrite blank_flags_white, IH.
Qed.

Lemma blank_flags_trimEnd s :
  map (fun x => truthy (trim x)) (split ";" (trimEnd s))
  = map (fun x => truthy (trim x)) (split ";" s).
Proof.
  induction s as [|c s IH]; [reflexivity|]. cbn [trimEnd].
  destruct (trimEnd s) as [|d t] eqn:E.
  - apply trimEnd_empty_iff in E. rewrite (blank_flags_all_white s E) in IH.
    destruct (is_white c) eqn:Ec.
    + rewrite (blank_flags_white c s Ec), (blank_flags_all_white s E). reflexivity.
    + destruct (Ascii.eqb_spec c ";") as [->|Hne].
      * rewrite !split_cons_sep. cbn [map].
        rewrite (blank_flags_all_white s E). reflexivity.
      * apply Ascii.eqb_neq in Hne.
        destruct (split_cons_other c s Hne) as (h & t & Hs & ->).
        destruct (split_cons_other c "" Hne) as (h' & t' & Hs' & ->).
        cbn in Hs'. injection Hs' as <- <-.
        pose proof (blank_flags_all_white s E) as Hflags. rewrite Hs in Hflags.
        cbn [map] in *. injection Hflags as _ Ht.
        rewrite !truthy_trim_cons, Ec. cbn. now rewrite Ht.
  - destruct (Ascii.eqb_spec c ";") as [->|Hne].
    + rewrite !split_cons_sep. cbn [map]. now rewrite IH.
    + apply Ascii.eqb_neq in Hne.
      destruct (split_cons_other c s Hne) as (h & t' & Hs & ->).
      destruct (split_cons_other c (String d t) Hne) as (h' & t'' & Hs' & ->).
      rewrite Hs, Hs' in IH. cbn [map] in *. injection IH as Hh Ht.
      now rewrite !truthy_trim_cons, Hh, Ht.
Qed.

Lemma filter_length_flags {A} (f : A -> bool) (l1 l2 : list A) :
  map f l1 = map f l2 -> length (List.filter f l1) = length (List.filter f l2).
Proof.
  revert l2. induction l1 as [|x l1 IH]; intros [|y l2] H; try discriminate;
    [reflexivity|].
  cbn [map] in H. injection H as Hxy Hl. cbn [List.filter]. rewrite Hxy.
  destruct (f y); cbn [length]; now rewrite (IH l2 Hl).
Qed.

Lemma statements_trim s : length (statements (trim s)) = length (statements s).
Proof.
  unfold statements. apply filter_length_flags.
  unfold trim. now rewrite blank_flags_trimEnd, blank_flags_trimStart.
Qed.

(** X23.  White space around the text does not change the verdict: the
    classifier answers for a text as it answers for the trimmed text, which
    is what the practice service submits. *)
Theorem verdict_ignores_outer_space sql :
  preValidateSQL (trim sql) = preValidateSQL sql.
Proof.
  unfold preValidateSQL. now rewrite trim_idempotent, statements_trim.
Qed.

(** ** The next exercise *)

Lemma sort_head_least (l : list Practice.Exercise) first rest :
  sort (fun a b => Practice.exercise_orderIndex a - Practice.exercise_orderIndex b) l
  = first :: rest ->
  In first l /\
  forall e, In e l -> Practice.exercise_orderIndex first <= Practice.exercise_orderIndex e.
Proof.
  intros Hs.
  set (cmp := fun a b => Practice.exercise_orderIndex a - Practice.exercise_orderIndex b)
    in *.
  pose proof (sort_permutation cmp l) as Hperm. rewrite Hs in Hperm.
  assert (Hsorted : Sorted (fun a b => cmp a b <= 0) (sort cmp l)).
  { apply sort_sorted. intros a b. unfold cmp. lia. }
  rewrite Hs in Hsorted.
  assert (Htrans : Relations_1.Transitive (fun a b => cmp a b <= 0)).
  { intros a b c. unfold cmp. lia. }
  pose proof (Sorted_extends Htrans Hsorted) as Hall.
  split.
  - apply (Permutation_in first Hperm). now left.
  - intros e He. apply (Permutation_in e (Permutation_sym Hperm)) in He.
    destruct He as [<- | He]; [lia|].
    rewrite List.Forall_forall in Hall. specialize (Hall e He). unfold cmp in Hall. lia.
Qed.

(** X25.  On the table of exercises, the exercise suggested after a
    correct answer is the closest one that follows in the same lesson: it
    belongs to the table and to the lesson, its order index is greater than
    the current one, and no exercise of the lesson lies in between; none is
    suggested when the lesson has no later exercise, and only then.  When
    the query fails, none is suggested. *)
Theorem next_exercise_is_closest exercises current :
  Practice.findNextExercise None current = None /\
  match Practice.findNextExercise (Some exercises) current with
  | Some id =>
      exists e,
        In e exercises /\ Practice.exercise_id e = id /\
        Practice.exercise_lessonId e = Practice.exercise_lessonId current /\
        Practice.exercise_orderIndex current < Practice.exercise_orderIndex e /\
        forall e',
          In e' exercises ->
          Practice.exercise_lessonId e' = Practice.exercise_lessonId current ->
          Practice.exercise_orderIndex current < Practice.exercise_orderIndex e' ->
          Practice.exercise_orderIndex e <= Practice.exercise_orderIndex e'
  | None =>
      forall e',
        In e' exercises ->
        Practice.exercise_lessonId e' = Practice.exercise_lessonId current ->
        Practice.exercise_orderIndex e' <= Practice.exercise_orderIndex current
  end.
Proof.
  split; [reflexivity|].
  unfold Practice.findNextExercise.
  set (later := List.filter _ exercises).
  assert (Hlater : forall e, In e later <->
                             In e exercises /\
                             Practice.exercise_lessonId e = Practice.exercise_lessonId current /\
                             Practice.exercise_orderIndex current
                             < Practice.exercise_orderIndex e).
  { intros e. subst later. rewrite List.filter_In, andb_true_iff, String.eqb_eq, Z.ltb_lt.
    tauto. }
  destruct (sort _ later) as [|first rest] eqn:Es.
  - intros e' Hin Hlesson.
    destruct (Z.le_gt_cases (Practice.exercise_orderIndex e')
                (Practice.exercise_orderIndex current)) as [H|H]; [exact H|].
    assert (He : In e' later) by (apply Hlater; repeat split; [assumption..|lia]).
    pose proof (sort_permutation
                  (fun a b => Practice.exercise_orderIndex a - Practice.exercise_orderIndex b)
                  later) as Hperm.
    rewrite Es in Hperm. apply Permutation_sym in Hperm.
    now apply (Permutation_in e' Hperm) in He.
  - apply sort_head_least in Es as [Hin Hleast].
    exists first. apply Hlater in Hin as (Hin & Hlesson & Hafter).
    repeat split; try assumption.
    intros e' Hin' Hlesson' Hafter'. apply Hleast, Hlater. auto.
Qed.

Example next_exercise_examples :
  Practice.findNextExercise (Some example_exercises) (nth 1 example_exercises
    (nth 0 example_exercises (nth 0 example_exercises
       {| Practice.exercise_id := ""; Practice.exercise_lessonId := "";
          Practice.exercise_prompt := ""; Practice.exercise_expectedSql := None;
          Practice.exercise_expectedResult := None; Practice.exercise_difficulty := "";
          Practice.exercise_orderIndex := 0 |}))) = Some "ex-2".
Proof. reflexivity. Qed.

(** ** Instances *)

Lemma blank_query_rejected_witness :
  preValidateSQL "   " = reject "SQL query cannot be empty".
Proof. apply (proj2 (blank_query_rejected "   ")). reflexivity. Defined.

Lemma generateFeedback_always_returns_witness :
  exists payload st',
    generateFeedback example_config service_down failed_context fresh_state
    = (Returned payload, st') /\
    responseCache st' !! "key" = responseCache fresh_state !! "key".
Proof.
  destruct (generateFeedback_always_returns example_config service_down
              failed_context fresh_state) as (payload & st' & E & _ & _ & Hother).
  exists payload, st'. split; [exact E|]. apply Hother. discriminate.
Defined.

Lemma timeout_is_positive_witness :
  1000 <= Config.getOptimalTimeout {[ "AI_TIMEOUT_SECONDS" := "30" ]} "darwin" "arm64" /\
  Config.getOptimalTimeout {[ "AI_TIMEOUT_SECONDS" := "30" ]} "darwin" "arm64" = 30000.
Proof.
  split; [|reflexivity].
  exact (proj1 (timeout_is_positive {[ "AI_TIMEOUT_SECONDS" := "30" ]} "darwin" "arm64")).
Defined.

Lemma message_accepted_witness :
  Tutor.validateMessage "How do I join two tables?" = None.
Proof.
  apply (proj2 (message_accepted "How do I join two tables?")).
  split.
  - intros pattern Hin Hocc.
    assert (H : List.existsb (fun p => Tutor.test p "How do I join two tables?")
                  Tutor.HARMFUL_PATTERNS = true)
      by (apply existsb_harmful; eauto).
    discriminate.
  - intros term Hin Hocc.
    assert (H : List.existsb
                  (fun t => includes (toLowerCase "How do I join two tables?") t)
                  Tutor.suspiciousTerms = true)
      by (apply existsb_suspicious; eauto).
    discriminate.
Defined.

Lemma next_exercise_is_closest_witness :
  exists e,
    In e example_exercises /\ Practice.exercise_id e = "ex-3" /\
    Practice.exercise_orderIndex e = 3.
Proof.
  pose proof (next_exercise_is_closest example_exercises
                (nth 2 example_exercises (nth 0 example_exercises
                   (nth 0 example_exercises
                      {| Practice.exercise_id := ""; Practice.exercise_lessonId := "";
                         Practice.exercise_prompt := "";
                         Practice.exercise_expectedSql := None;
                         Practice.exercise_expectedResult := None;
                         Practice.exercise_difficulty := "";
                         Practice.exercise_orderIndex := 0 |})))) as H.
  destruct H as [_ H]. cbn in H. destruct H as (e & Hin & Hid & _ & _ & Hleast).
  exists e. split; [exact Hin|]. split; [exact Hid|].
  destruct Hin as [<- | [<- | [<- | []]]]; try discriminate. reflexivity.
Defined.
